(** * api2html: the template engine and the request handler

    A shallow embedding of [engine/mustache.go] and [engine/handler.go]:
    the partial resolver, the batch compilation of the declared templates,
    the layout renderer, the handler configuration, the handler's
    subscription loop and its request path. *)

From Stdlib Require Import ZArith String Ascii List Bool Lia.
From Stdlib Require Import Floats.SpecFloat.
From stdpp Require Import base tactics option list strings gmap pretty.

Local Open Scope string_scope.
Local Open Scope Z_scope.
Local Open Scope list_scope.

(** Go's [error] interface, by its message; a nil error is [None]. *)
Definition error : Type := string.

(** * The Go runtime: float64, [time.Duration], [%d], [range] *)
Module Go.

(** IEEE 754 binary64, on the Standard Library's specification of
    floating-point arithmetic. *)
Definition prec : Z := 53.
Definition emax : Z := 1024.
Definition float64 : Type := spec_float.

(** [float64(n)] for an integer [n]: rounded to nearest, ties to even. *)
Definition float64_of_int (n : Z) : float64 := binary_normalize prec emax n 0 false.
Definition float64_add : float64 -> float64 -> float64 := SFadd prec emax.
Definition float64_div : float64 -> float64 -> float64 := SFdiv prec emax.

(** [int(f)] on a 64-bit platform: the fraction is discarded (truncation
    towards zero).  The conversion of a value outside int64, of an infinity
    or of a NaN is implementation-specific in Go; the model gives [0]. *)
Definition int_of_float64 (f : float64) : Z :=
  match f with
  | S754_finite s m e =>
      let a := if (0 <=? e) then Z.shiftl (Z.pos m) e else Z.shiftr (Z.pos m) (- e) in
      let v := if s then - a else a in
      if (- 2 ^ 63 <=? v) && (v <? 2 ^ 63) then v else 0
  | _ => 0
  end.

(** [time.Duration] is an int64 count of nanoseconds. *)
Definition Duration : Type := Z.
Definition Nanosecond : Duration := 1.
Definition Microsecond : Duration := 1000 * Nanosecond.
Definition Millisecond : Duration := 1000 * Microsecond.
Definition Second : Duration := 1000 * Millisecond.
Definition Minute : Duration := 60 * Second.
Definition Hour : Duration := 60 * Minute.

(** [func (d Duration) Seconds() float64]:
    [sec := d / Second; nsec := d % Second;
     return float64(sec) + float64(nsec)/1e9].
    Go's integer [/] and [%] truncate towards zero. *)
Definition Seconds (d : Duration) : float64 :=
  let sec := Z.quot d Second in
  let nsec := Z.rem d Second in
  float64_add (float64_of_int sec)
              (float64_div (float64_of_int nsec) (float64_of_int 1000000000)).

(** The verb [%d] of [fmt.Sprintf]: decimal digits, a leading [-] for a
    negative number. *)
Definition fmt_d (n : Z) : string := pretty n.

(** The order in which a [range] statement visits the entries of a map is
    left to the runtime: every entry once, in any order, which may differ
    from one [range] to the next; [range_map n m] is the order of the
    [n]-th [range] over a map that a function executes. *)
Class MapOrder : Type := {
  range_map : nat -> gmap string string -> list (string * string);
  range_map_perm : forall n m, range_map n m ≡ₚ map_to_list m
}.

End Go.

(** * The template system: [github.com/cbroglie/mustache] *)
Module mustache.

(** [type PartialProvider interface { Get(name string) (string, error) }] *)
Record PartialProvider : Type := { Get : string -> string * option error }.

(** [StaticProvider{Partials}]: the text registered under the name, the
    empty text (and no error) for a name that is not registered. *)
Definition StaticProvider (Partials : gmap string string) : PartialProvider :=
  {| Get name := match Partials !! name with
                 | Some data => (data, None)
                 | None => ("", None)
                 end |}.

(** An [io.Writer] that keeps what it was given: the bytes written so far. *)
Definition Writer : Type := string.

(** The parser and the expansion of a parsed template are the library's.
    [expand t context] is what rendering [t] against the context stack
    writes, with the error that stopped it, if any.  A [Value] is an
    [interface{}]: [nil_value] is nil, [of_string_map m] holds a
    [map[string]string]. *)
Class Engine : Type := {
  Template : Type;
  Value : Type;
  ParseStringPartials : string -> PartialProvider -> error + Template;
  expand : Template -> list Value -> string * option error;
  nil_value : Value;
  of_string_map : gmap string string -> Value
}.

Section Rendering.
Context `{Engine}.

(** [tmpl.FRender(out, context...)] *)
Definition FRender (tmpl : Template) (out : Writer) (context : list Value)
  : Writer * option error :=
  let '(text, err) := expand tmpl context in (out +:+ text, err).

(** [tmpl.Render(context...)]: [FRender] into a fresh buffer. *)
Definition Render (tmpl : Template) (context : list Value) : string * option error :=
  FRender tmpl "" context.

(** Modelled from the spec: the template system's [FRenderInLayout], which
    the package calls and whose source is not at hand.  It renders the inner
    template against the data to a content fragment, then renders the
    layout against the composite value that holds the fragment in its
    [content] slot and passes the data through, writing the layout's
    expansion to the sink; a failure of the inner rendering is the render
    error, and nothing is written. *)
Definition FRenderInLayout (tmpl : Template) (out : Writer) (layout : Template)
    (context : list Value) : Writer * option error :=
  match Render tmpl context with
  | (_, Some err) => (out, Some err)
  | (content, None) =>
      FRender layout out (of_string_map {[ "content" := content ]} :: context)
  end.
End Rendering.

End mustache.

(** * The operating system: files *)
Module os.

(** An [io.Reader], by what [ioutil.ReadAll] gets from it. *)
Definition Reader : Type := (error + string)%type.

(** [os.Open]: the file system. *)
Class FS : Type := {
  Open : string -> error + Reader
}.

Definition ReadAll (r : Reader) : error + string := r.

End os.

(** * Package [io/ioutil] *)
Module ioutil.

(** [ioutil.ReadFile(path)]: the file is opened and read to its end. *)
Definition ReadFile `{os.FS} (path : string) : error + string :=
  match os.Open path with
  | inl err => inl err
  | inr file => os.ReadAll file
  end.

End ioutil.

(** * Package [time], as far as the handler configuration uses it *)
Module time.

(** [time.ParseDuration] is the standard library's parser. *)
Class Parser : Type := {
  ParseDuration : string -> error + Go.Duration
}.

End time.

(** * Package [engine], file [mustache.go] *)
Module engine.
Import mustache.

(** ** The partial resolver *)

Record partialProvider : Type := {
  statics : PartialProvider;
  dynamc : PartialProvider
}.

(** [partialProvider.Get(name string) (string, error)], on a pointer receiver. *)
Definition partialProvider_Get (sp : partialProvider) (name : string)
  : string * option error :=
  let '(data, err) := Get (statics sp) name in
  if bool_decide (err = None) && negb (String.eqb data "")
  then (data, None)
  else Get (dynamc sp) name.

(** A [partialProvider] as a [mustache.PartialProvider]. *)
Definition partialProvider_PartialProvider (sp : partialProvider) : PartialProvider :=
  {| Get := partialProvider_Get sp |}.

(** Declared in other files of the package: the text of the built-in debug
    partial, and the tracing application, which is set or nil.
    [mustache.FileProvider{}] reads partials from the file system. *)
Class Globals : Type := {
  debuggerTmpl : string;
  FileProvider : PartialProvider;
  newrelicApp : bool
}.

(** [Config], as far as the compilation uses it: template and layout names,
    each with the path of its file. *)
Record Config : Type := {
  Templates : gmap string string;
  Layouts : gmap string string
}.

Section Mustache.
Context `{Engine} `{os.FS} `{Go.MapOrder} `{Globals}.

Definition partials : gmap string string :=
  {[ "api2html/debug" := debuggerTmpl ]}.

Definition customPartialProvider : partialProvider :=
  {| dynamc := FileProvider;
     statics := StaticProvider partials |}.

(** [newMustacheTemplate(r io.Reader)], a template or an error. *)
Definition newMustacheTemplate (r : os.Reader) : error + Template :=
  match os.ReadAll r with
  | inl err => inl err
  | inr data =>
      ParseStringPartials data (partialProvider_PartialProvider customPartialProvider)
  end.

(** [MustacheRenderer]: one parsed template. *)
Record MustacheRenderer : Type := { tmpl : Template }.

(** [NewMustacheRenderer(r io.Reader)], a renderer or an error. *)
Definition NewMustacheRenderer (r : os.Reader) : error + MustacheRenderer :=
  match newMustacheTemplate r with
  | inl err => inl err
  | inr t => inr {| tmpl := t |}
  end.

(** [MustacheRenderer.Render(w io.Writer, v interface{}) error] *)
Definition MustacheRenderer_Render (m : MustacheRenderer) (w : Writer) (v : Value)
  : Writer * option error :=
  FRender (tmpl m) w [v].

(** [LayoutMustacheRenderer]: a template composed with a layout. *)
Record LayoutMustacheRenderer : Type := {
  layout_tmpl : Template;
  layout : Template
}.

(** [NewLayoutMustacheRenderer(t, l io.Reader)], a renderer or an error. *)
Definition NewLayoutMustacheRenderer (t l : os.Reader) : error + LayoutMustacheRenderer :=
  match newMustacheTemplate t with
  | inl err => inl err
  | inr tm =>
      match newMustacheTemplate l with
      | inl err => inl err
      | inr ly => inr {| layout_tmpl := tm; layout := ly |}
      end
  end.

(** [LayoutMustacheRenderer.Render(w io.Writer, v interface{}) error] *)
Definition LayoutMustacheRenderer_Render (m : LayoutMustacheRenderer) (w : Writer)
    (v : Value) : Writer * option error :=
  FRenderInLayout (layout_tmpl m) w (layout m) [v].

(** The inner loop of [NewMustacheRendererMap]: one section of the
    configuration, in the order the runtime visits it.  [Some err] is the
    [return result, err] of the loop body. *)
Fixpoint compile_section (section : list (string * string))
    (result : gmap string MustacheRenderer)
  : gmap string MustacheRenderer * option error :=
  match section with
  | [] => (result, None)
  | (name, path) :: rest =>
      match os.Open path with
      | inl err => (result, Some err)
      | inr templateFile =>
          match NewMustacheRenderer templateFile with
          | inl err => (result, Some err)
          | inr renderer => compile_section rest (<[ name := renderer ]> result)
          end
      end
  end.

(** The outer loop: the sections, one after the other; [n] counts the
    sections already visited. *)
Fixpoint compile_sections (n : nat) (sections : list (gmap string string))
    (result : gmap string MustacheRenderer)
  : gmap string MustacheRenderer * option error :=
  match sections with
  | [] => (result, None)
  | section :: rest =>
      match compile_section (Go.range_map n section) result with
      | (result', None) => compile_sections (S n) rest result'
      | (result', Some err) => (result', Some err)
      end
  end.

(** [NewMustacheRendererMap(cfg Config)]: the map built so far and the error. *)
Definition NewMustacheRendererMap (cfg : Config)
  : gmap string MustacheRenderer * option error :=
  compile_sections 0 [Templates cfg; Layouts cfg] ∅.

End Mustache.

(** ** File [handler.go] *)

(** [Page], as far as the handler uses it; [Extra] is the fixed payload of
    a page without a backend. *)
Module Page.
Record t `{Engine} : Type := {
  Name : string;
  Template : string;
  Layout : string;
  CacheTTL : string;
  BackendURLPattern : string;
  IsArray : bool;
  Extra : Value
}.
End Page.

(** [type Renderer interface { Render(io.Writer, interface{}) error }] *)
Record Renderer `{Engine} : Type := {
  Render : Writer -> Value -> Writer * option error
}.

(** The gin context of a request: its parameters, and the response
    under construction (status code, headers, body, the abort flag and the
    errors attached to the request). *)
Record Context : Type := {
  Params : list (string * string);
  status : Z;
  header : gmap string string;
  body : string;
  aborted : bool;
  Errors : list error
}.

(** [type ResponseGenerator], a function from the gin context to a
    response context and an error; the response context is the data handed
    to the renderer. *)
Definition ResponseGenerator `{Engine} : Type := Context -> error + Value.

(** A channel, by its identity. *)
Definition chan : Type := nat.

(** [Subscription{topic, deliveryChannel}] *)
Record Subscription : Type := {
  topic : string;
  deliveryChannel : chan
}.

(** The collaborators of the dynamic response generator, and the two
    package-level defaults [EmptyRenderer] and [NoopResponse]; all are
    declared in other files of the package. *)
Class Collaborators `{Engine} : Type := {
  EmptyRenderer : Renderer;
  NoopResponse : ResponseGenerator;
  build_url : string -> list (string * string) -> string;
  fetch : string -> error + (string * Z);
  success_status : Z -> bool;
  status_error : Z -> error;
  JSONDecoder : string -> error + Value;
  JSONArrayDecoder : string -> error + Value
}.

Module HandlerConfig.
Record t `{Engine} : Type := {
  Page : Page.t;
  Renderer : option Renderer;
  ResponseGenerator : ResponseGenerator;
  CacheControl : string
}.
End HandlerConfig.

Module Handler.
Record t `{Engine} : Type := {
  Page : Page.t;
  Renderer : option Renderer;
  Input : chan;
  Subscribe : chan;
  ResponseGenerator : ResponseGenerator;
  CacheControl : string
}.
End Handler.

Definition StatusInternalServerError : Z := 500.

Section Generators.
Context `{Engine} `{!Collaborators}.

(** Modelled from the spec: [StaticResponseGenerator], whose source is not
    at hand: it always succeeds and returns the page's embedded fixed
    payload verbatim, ignoring the request. *)
Definition StaticResponseGenerator (page : Page.t) : ResponseGenerator :=
  fun _ => inr (Page.Extra page).

(** Modelled from the spec: [CachedClient], whose source is not at hand: the
    fetch through the external cached client of the URL built from the
    configured pattern and the request's parameters. *)
Definition CachedClient (URLPattern : string)
  : list (string * string) -> error + (string * Z) :=
  fun params => fetch (build_url URLPattern params).

(** Modelled from the spec: [DynamicResponseGenerator], whose source is
    not at hand: it fetches, then decodes the body with the configured
    decoder; a fetch error, a non-success status and a decode error are
    generation failures. *)
Definition DynamicResponseGenerator (page : Page.t)
    (client : list (string * string) -> error + (string * Z))
    (decoder : string -> error + Value) : ResponseGenerator :=
  fun c =>
    match client (Params c) with
    | inl err => inl err
    | inr (data, code) =>
        if success_status code then decoder data else inl (status_error code)
    end.
End Generators.

Section HandlerConfiguration.
Context `{Engine} `{!Collaborators} `{time.Parser}.

(** [var DefaultHandlerConfig] *)
Definition DefaultHandlerConfig : HandlerConfig.t :=
  {| HandlerConfig.Page :=
       {| Page.Name := ""; Page.Template := ""; Page.Layout := "";
          Page.CacheTTL := ""; Page.BackendURLPattern := "";
          Page.IsArray := false; Page.Extra := nil_value |};
     HandlerConfig.Renderer := Some EmptyRenderer;
     HandlerConfig.ResponseGenerator := NoopResponse;
     HandlerConfig.CacheControl := "public, max-age=3600" |}.

(** [func NewHandlerConfig(page Page) HandlerConfig] *)
Definition NewHandlerConfig (page : Page.t) : HandlerConfig.t :=
  let d := match time.ParseDuration (Page.CacheTTL page) with
           | inl _ => Go.Hour
           | inr d => d
           end in
  let cacheTTL := "public, max-age=" +:+ Go.fmt_d (Go.int_of_float64 (Go.Seconds d)) in
  if String.eqb (Page.BackendURLPattern page) ""
  then
    let rg := StaticResponseGenerator page in
    {| HandlerConfig.Page := page;
       HandlerConfig.Renderer := HandlerConfig.Renderer DefaultHandlerConfig;
       HandlerConfig.ResponseGenerator := rg;
       HandlerConfig.CacheControl := cacheTTL |}
  else
    let decoder := if Page.IsArray page then JSONArrayDecoder else JSONDecoder in
    let rg := DynamicResponseGenerator page (CachedClient (Page.BackendURLPattern page)) decoder in
    {| HandlerConfig.Page := page;
       HandlerConfig.Renderer := HandlerConfig.Renderer DefaultHandlerConfig;
       HandlerConfig.ResponseGenerator := rg;
       HandlerConfig.CacheControl := cacheTTL |}.
End HandlerConfiguration.

(** The calls a request makes, in the order it makes them. *)
Inductive Call `{Engine} : Type :=
| SetName (name : string)
| Generate
| StartSegment (name : string)
| EndSegment
| SetHeader (key value : string)
| RenderWith (r : Renderer) (v : Value)
| AbortWithError (code : Z) (err : error).

(** The state a request runs in: its gin context and the journal of its
    calls. *)
Record Exec `{Engine} : Type := {
  ctx : Context;
  journal : list Call
}.

(** How [HandlerFunc] ends: it returns, or the call of a method of a nil
    [Renderer] panics. *)
Inductive outcome : Type := Returned | Panicked.

Section RequestPath.
Context `{Engine} `{!Globals}.

(** The request path threads the execution state through its calls. *)
Definition M (A : Type) : Type := Exec -> A * Exec.
Definition ret {A} (a : A) : M A := fun s => (a, s).
Definition bind {A B} (m : M A) (k : A -> M B) : M B :=
  fun s => let '(a, s') := m s in k a s'.

Notation "x <~ m ;; k" := (bind m (fun x => k))
  (at level 100, m at next level, right associativity).
Notation "m ;;; k" := (bind m (fun _ => k))
  (at level 100, right associativity).

Definition record (call : Call) : M unit :=
  fun s => (tt, {| ctx := ctx s; journal := journal s ++ [call] |}).

Definition update (f : Context -> Context) : M unit :=
  fun s => (tt, {| ctx := f (ctx s); journal := journal s |}).

(** [c.Header(key, value)]: an empty value removes the header. *)
Definition c_Header (key value : string) : M unit :=
  record (SetHeader key value) ;;;
  update (fun c =>
    {| Params := Params c; status := status c;
       header := if String.eqb value "" then delete key (header c)
                 else <[ key := value ]> (header c);
       body := body c; aborted := aborted c; Errors := Errors c |}).

(** [c.AbortWithError(code, err)]: the status code is set, the request is
    aborted and the error is attached to it. *)
Definition c_AbortWithError (code : Z) (err : error) : M unit :=
  record (AbortWithError code err) ;;;
  update (fun c =>
    {| Params := Params c;
       status := if 0 <? code then code else status c;
       header := header c; body := body c; aborted := true;
       Errors := Errors c ++ [err] |}).

(** [r.Render(c.Writer, result)] *)
Definition c_Render (r : Renderer) (result : Value) : M (option error) :=
  record (RenderWith r result) ;;;
  (fun s =>
     let '(w, err) := Render r (body (ctx s)) result in
     (err, {| ctx := {| Params := Params (ctx s); status := status (ctx s);
                        header := header (ctx s); body := w;
                        aborted := aborted (ctx s); Errors := Errors (ctx s) |};
              journal := journal s |})).

(** [h.ResponseGenerator(c)] *)
Definition c_Generate (h : Handler.t) : M (error + Value) :=
  record Generate ;;;
  (fun s => (Handler.ResponseGenerator h (ctx s), s)).

(** The tracing calls are made when [newrelicApp] is set. *)
Definition traced (call : Call) : M unit :=
  if newrelicApp then record call else ret tt.

(** [Handler.HandlerFunc], on a gin context.  The end of the
    [Render] segment is deferred: it runs when the function leaves. *)
Definition HandlerFunc (h : Handler.t) : M outcome :=
  traced (SetName (Page.Name (Handler.Page h))) ;;;
  g <~ c_Generate h ;;
  match g with
  | inl err =>
      c_AbortWithError StatusInternalServerError err ;;;
      ret Returned
  | inr result =>
      traced (StartSegment "Render") ;;;
      o <~ (c_Header "Cache-Control" (Handler.CacheControl h) ;;;
            match Handler.Renderer h with
            | None => ret Panicked
            | Some r =>
                e <~ c_Render r result ;;
                match e with
                | Some err =>
                    c_AbortWithError StatusInternalServerError err ;;;
                    ret Returned
                | None => ret Returned
                end
            end) ;;
      traced EndSegment ;;;
      ret o
  end.

(** A request enters the handler with an empty journal. *)
Definition serve (h : Handler.t) (c : Context) : outcome * Exec :=
  HandlerFunc h {| ctx := c; journal := [] |}.

(** [HandlerFunc] in two parts, cut where it reads the field [h.Renderer]
    that the subscription loop writes.  The first part runs from the entry
    to [c.Header("Cache-Control", h.CacheControl)]: it gives the generated
    result, or nothing when the generation failed and the request was
    aborted. *)
Definition HandlerFunc_generate (h : Handler.t) : M (option Value) :=
  traced (SetName (Page.Name (Handler.Page h))) ;;;
  g <~ c_Generate h ;;
  match g with
  | inl err =>
      c_AbortWithError StatusInternalServerError err ;;;
      ret None
  | inr result =>
      traced (StartSegment "Render") ;;;
      c_Header "Cache-Control" (Handler.CacheControl h) ;;;
      ret (Some result)
  end.

(** The second part is the call [h.Renderer.Render(c.Writer, result)] on
    the renderer that was read, with what follows it and the deferred end
    of the tracing segment. *)
Definition HandlerFunc_render (renderer : option Renderer) (result : Value) : M outcome :=
  o <~ match renderer with
       | None => ret Panicked
       | Some r =>
           e <~ c_Render r result ;;
           match e with
           | Some err =>
               c_AbortWithError StatusInternalServerError err ;;;
               ret Returned
           | None => ret Returned
           end
       end ;;
  traced EndSegment ;;;
  ret o.
End RequestPath.

(** ** The subscription loop *)

(** The goroutine of [updateRenderer]: its local [topic], and where it
    stands in the loop, at the send of the subscription or at the receive
    of the renderer. *)
Inductive Goroutine : Type :=
| Sending (topic : string)
| Receiving (topic : string).

(** What the handler's two tasks do: the loop's send and receive on its
    channels, and a request served with the renderer current at that
    moment. *)
Inductive Label `{Engine} : Type :=
| Send (ch : chan) (sub : Subscription)
| Receive (ch : chan) (r : option Renderer)
| Serve (used : option Renderer) (c : Context) (o : outcome) (e : Exec).

(** What the environment does: the broker accepts the pending
    subscription, something delivers a renderer on the private channel, a
    request comes in. *)
Inductive Event `{Engine} : Type :=
| Accept
| Deliver (r : option Renderer)
| Request (c : Context).

Section SubscriptionLoop.
Context `{Engine} `{!Globals}.

Definition State : Type := (Handler.t * Goroutine)%type.

(** The first lines of [updateRenderer]: the topic of the page. *)
Definition updateRenderer_topic (h : Handler.t) : string :=
  if negb (String.eqb (Page.Layout (Handler.Page h)) "")
  then Page.Layout (Handler.Page h) +:+ "-:-" +:+ Page.Template (Handler.Page h)
  else Page.Template (Handler.Page h).

(** [Handler.updateRenderer], up to its loop. *)
Definition updateRenderer (h : Handler.t) : Goroutine :=
  Sending (updateRenderer_topic h).

(** [NewHandler(cfg HandlerConfig, subscriptionChan chan Subscription)];
    [fresh] is the channel that [make(chan Renderer)] allocates.  The
    goroutine is started and the handler is returned at once. *)
Definition NewHandler (cfg : HandlerConfig.t) (subscriptionChan : chan) (fresh : chan)
  : State :=
  let h := {| Handler.Page := HandlerConfig.Page cfg;
              Handler.Renderer := HandlerConfig.Renderer cfg;
              Handler.Input := fresh;
              Handler.Subscribe := subscriptionChan;
              Handler.ResponseGenerator := HandlerConfig.ResponseGenerator cfg;
              Handler.CacheControl := HandlerConfig.CacheControl cfg |} in
  (h, updateRenderer h).

(** [h.Renderer = ...] *)
Definition set_Renderer (h : Handler.t) (r : option Renderer) : Handler.t :=
  {| Handler.Page := Handler.Page h;
     Handler.Renderer := r;
     Handler.Input := Handler.Input h;
     Handler.Subscribe := Handler.Subscribe h;
     Handler.ResponseGenerator := Handler.ResponseGenerator h;
     Handler.CacheControl := Handler.CacheControl h |}.

(** One step of the handler.  The channels are unbuffered: the send
    [h.Subscribe <- Subscription{topic, h.Input}] goes through when the
    broker accepts it, the receive [h.Renderer = <-h.Input] when a
    renderer is delivered; the other way round the two block ([None]).
    A request runs [HandlerFunc] on the handler as it is.  The receive
    with the write of the field, and a request, are each one step here;
    [advance] below takes them apart. *)
Definition step (s : State) (i : Event) : option (Label * State) :=
  let '(h, g) := s in
  match i, g with
  | Accept, Sending topic =>
      Some (Send (Handler.Subscribe h)
                 {| topic := topic; deliveryChannel := Handler.Input h |},
            (h, Receiving topic))
  | Deliver r, Receiving topic =>
      Some (Receive (Handler.Input h) r, (set_Renderer h r, Sending topic))
  | Request c, _ =>
      let '(o, e) := serve h c in
      Some (Serve (Handler.Renderer h) c o e, s)
  | _, _ => None
  end.

(** A run: the labels of the steps taken, and the state reached. *)
Fixpoint run (s : State) (inputs : list Event) : option (list Label * State) :=
  match inputs with
  | [] => Some ([], s)
  | i :: rest =>
      match step s i with
      | None => None
      | Some (l, s') =>
          match run s' rest with
          | None => None
          | Some (ls, s'') => Some (l :: ls, s'')
          end
      end
  end.
End SubscriptionLoop.

(** ** The handler among its goroutines

    [NewHandler] starts [updateRenderer] in a goroutine of its own, and
    the server runs [HandlerFunc] in one goroutine for each request.  The
    goroutines share the handler.  Its one field that is written after
    the construction is [h.Renderer]: the loop writes it, in
    [h.Renderer = <-h.Input], after the receive; each request reads it, at
    the call [h.Renderer.Render], after the generation.  Nothing orders
    the write and the reads.  [step] above takes a request, and a receive
    with its write, in one piece; the steps below are those between which
    the field is read or written, taken in any order.  A read and a write
    of the field are each taken in one piece. *)

(** Where the loop of [updateRenderer] stands: before the send, in the
    receive, and between the receive and the write of the field. *)
Inductive Loop `{Engine} : Type :=
| Registering (topic : string)
| Waiting (topic : string)
| Storing (topic : string) (r : option Renderer).

(** A request that has generated its result and has not yet read the
    renderer: the context it came in with, the result, and its context
    and calls so far. *)
Record Flight `{Engine} : Type := {
  flight_request : Context;
  flight_result : Value;
  flight_exec : Exec
}.

(** The handler, its loop and the requests in flight. *)
Record System `{Engine} : Type := {
  handler : Handler.t;
  loop : Loop;
  flights : list Flight
}.

(** What happens next: the broker accepts the pending subscription,
    something delivers a renderer on the private channel, the loop writes
    the renderer it received, a request comes in and runs up to the
    header, the [i]-th request in flight reads the renderer and finishes. *)
Inductive Action `{Engine} : Type :=
| Accepted
| Delivered (r : option Renderer)
| Stored
| Arrived (c : Context)
| Rendered (i : nat).

(** What is seen of it: the loop's send, receive and write, a request
    whose generation failed, a request that generated its result, a
    request that left [HandlerFunc]. *)
Inductive Observation `{Engine} : Type :=
| Sent (ch : chan) (sub : Subscription)
| Received (ch : chan) (r : option Renderer)
| Wrote (r : option Renderer)
| Failed (c : Context) (e : Exec)
| Began (c : Context)
| Served (c : Context) (o : outcome) (e : Exec).

Section Interleaving.
Context `{Engine} `{!Globals}.

(** The handler that [NewHandler] returns, with its loop started and no
    request in flight. *)
Definition launch (s : State) : System :=
  {| handler := fst s;
     loop := match snd s with
             | Sending topic => Registering topic
             | Receiving topic => Waiting topic
             end;
     flights := [] |}.

(** One step of one goroutine; [None] when the step is not possible: a
    send that nobody accepts, a receive when nothing is delivered. *)
Definition advance (s : System) (a : Action) : option (Observation * System) :=
  let h := handler s in
  match a with
  | Accepted =>
      match loop s with
      | Registering topic =>
          Some (Sent (Handler.Subscribe h)
                     {| topic := topic; deliveryChannel := Handler.Input h |},
                {| handler := h; loop := Waiting topic; flights := flights s |})
      | _ => None
      end
  | Delivered r =>
      match loop s with
      | Waiting topic =>
          Some (Received (Handler.Input h) r,
                {| handler := h; loop := Storing topic r; flights := flights s |})
      | _ => None
      end
  | Stored =>
      match loop s with
      | Storing topic r =>
          Some (Wrote r,
                {| handler := set_Renderer h r; loop := Registering topic;
                   flights := flights s |})
      | _ => None
      end
  | Arrived c =>
      match HandlerFunc_generate h {| ctx := c; journal := [] |} with
      | (None, e) => Some (Failed c e, s)
      | (Some result, e) =>
          Some (Began c,
                {| handler := h; loop := loop s;
                   flights := flights s ++ [{| flight_request := c;
                                               flight_result := result;
                                               flight_exec := e |}] |})
      end
  | Rendered i =>
      match flights s !! i with
      | None => None
      | Some f =>
          let '(o, e) := HandlerFunc_render (Handler.Renderer h) (flight_result f)
                                            (flight_exec f) in
          Some (Served (flight_request f) o e,
                {| handler := h; loop := loop s; flights := delete i (flights s) |})
      end
  end.

(** An execution: what is seen of the steps taken, and the state reached. *)
Fixpoint execute (s : System) (actions : list Action)
  : option (list Observation * System) :=
  match actions with
  | [] => Some ([], s)
  | a :: rest =>
      match advance s a with
      | None => None
      | Some (o, s') =>
          match execute s' rest with
          | None => None
          | Some (os, s'') => Some (o :: os, s'')
          end
      end
  end.

(** The steps of a run of [step], a request running to its end as soon as
    it has come in and the loop writing as soon as it has received. *)
Definition schedule (h : Handler.t) (inputs : list Event) : list Action :=
  flat_map (fun i =>
              match i with
              | Accept => [Accepted]
              | Deliver r => [Delivered r; Stored]
              | Request c =>
                  match Handler.ResponseGenerator h c with
                  | inl _ => [Arrived c]
                  | inr _ => [Arrived c; Rendered 0]
                  end
              end) inputs.
End Interleaving.

(** ** The static handlers of [handler.go] *)

(** The texts of the default pages are declared in another file of the
    package. *)
Class DefaultPages : Type := {
  default404Tmpl : string;
  default500Tmpl : string
}.

(** [StaticHandler]: a handler that writes the injected content. *)
Record StaticHandler : Type := { StaticHandler_Content : string }.

(** [ErrorHandler]: a handler that writes the injected content when the
    request was aborted with its error code. *)
Record ErrorHandler : Type := {
  Content : string;
  ErrorCode : Z
}.

Section StaticPages.
Context `{Engine} `{os.FS} `{!Globals} `{DefaultPages}.

Notation "x <~ m ;; k" := (bind m (fun x => k))
  (at level 100, m at next level, right associativity).
Notation "m ;;; k" := (bind m (fun _ => k))
  (at level 100, right associativity).

(** [var Default404StaticHandler] and [var Default500StaticHandler] *)
Definition Default404StaticHandler : StaticHandler :=
  {| StaticHandler_Content := default404Tmpl |}.

Definition Default500StaticHandler : ErrorHandler :=
  {| Content := default500Tmpl; ErrorCode := StatusInternalServerError |}.

(** [NewStaticHandler(path string) (StaticHandler, error)]; Go returns the
    zero handler beside the error. *)
Definition NewStaticHandler (path : string) : StaticHandler * option error :=
  match ioutil.ReadFile path with
  | inl err => ({| StaticHandler_Content := "" |}, Some err)
  | inr data => ({| StaticHandler_Content := data |}, None)
  end.

(** [NewErrorHandler(path string, code int) (ErrorHandler, error)] *)
Definition NewErrorHandler (path : string) (code : Z) : ErrorHandler * option error :=
  match ioutil.ReadFile path with
  | inl err => ({| Content := ""; ErrorCode := 0 |}, Some err)
  | inr data => ({| Content := data; ErrorCode := code |}, None)
  end.

(** [c.Writer.Write(content)] *)
Definition c_Write (content : string) : M unit :=
  update (fun c =>
    {| Params := Params c; status := status c; header := header c;
       body := body c +:+ content; aborted := aborted c; Errors := Errors c |}).

(** [StaticHandler.HandlerFunc()]: the gin handler it returns. *)
Definition StaticHandler_HandlerFunc (e : StaticHandler) : M unit :=
  traced (SetName "StaticHandler") ;;;
  c_Write (StaticHandler_Content e).

(** [ErrorHandler.HandlerFunc()]: the gin middleware it returns.  [next] is
    what [c.Next()] runs, the handlers after this one in the chain; a panic
    of theirs leaves through the middleware. *)
Definition ErrorHandler_HandlerFunc (e : ErrorHandler) (next : M outcome) : M outcome :=
  o <~ next ;;
  match o with
  | Panicked => ret Panicked
  | Returned =>
      fun s =>
        if negb (aborted (ctx s)) || negb (status (ctx s) =? ErrorCode e)
        then (Returned, s)
        else (c_Write (Content e) ;;; ret Returned) s
  end.

(** A request enters a chain with an empty journal. *)
Definition enter {A} (m : M A) (c : Context) : A * Exec :=
  m {| ctx := c; journal := [] |}.
End StaticPages.

End engine.

(** * A small instance of the interfaces, for the examples

    Templates are text with [{{name}}] variables and [{{>name}}] partials,
    the data is a flat map, files are a map from paths to contents, and a
    duration is one unsigned decimal number and a unit. *)
Module examples.
Import mustache engine.

Inductive token : Type :=
| Text (s : string)
| Var (name : string).

(** The tags of a source text; [acc] is the text or the tag name read so
    far. *)
Fixpoint scan (s acc : string) (in_tag : bool) : error + list token :=
  match s with
  | EmptyString => if in_tag then inl "unclosed tag" else inr [Text acc]
  | String "{" (String "{" rest) =>
      if in_tag then inl "tag in a tag"
      else match scan rest "" true with
           | inl err => inl err
           | inr ts => inr (Text acc :: ts)
           end
  | String "}" (String "}" rest) =>
      if in_tag
      then match scan rest "" false with
           | inl err => inl err
           | inr ts => inr (Var acc :: ts)
           end
      else inl "unopened tag"
  | String c rest => scan rest (acc +:+ String c "") in_tag
  end.

(** Partials are resolved when the template is parsed. *)
Fixpoint resolve (provider : PartialProvider) (ts : list token) : error + list token :=
  match ts with
  | [] => inr []
  | Var (String ">" name) :: rest =>
      match Get provider name with
      | (_, Some err) => inl err
      | (data, None) =>
          match resolve provider rest with
          | inl err => inl err
          | inr ts' => inr (Text data :: ts')
          end
      end
  | t :: rest =>
      match resolve provider rest with
      | inl err => inl err
      | inr ts' => inr (t :: ts')
      end
  end.

Definition parse (data : string) (provider : PartialProvider) : error + list token :=
  match scan data "" false with
  | inl err => inl err
  | inr ts => resolve provider ts
  end.

(** A variable is looked up in the context stack, top first. *)
Fixpoint lookup_var (name : string) (context : list (gmap string string)) : string :=
  match context with
  | [] => ""
  | m :: rest => match m !! name with
                 | Some v => v
                 | None => lookup_var name rest
                 end
  end.

Fixpoint expand_tokens (ts : list token) (context : list (gmap string string)) : string :=
  match ts with
  | [] => ""
  | Text s :: rest => s +:+ expand_tokens rest context
  | Var name :: rest => lookup_var name context +:+ expand_tokens rest context
  end.

#[export] Instance mini : Engine := {|
  Template := list token;
  Value := gmap string string;
  ParseStringPartials := parse;
  expand := fun t context => (expand_tokens t context, None);
  nil_value := ∅;
  of_string_map := fun m => m
|}.

Definition files : gmap string string :=
  {[ "/tmpl/page.mustache" := "<h1>{{title}}</h1>";
     "/tmpl/broken.mustache" := "<h1>{{title</h1>";
     "/tmpl/main.mustache" := "<body>{{content}}</body>" ]}.

#[export] Instance disk : os.FS := {|
  os.Open := fun path => match files !! path with
                         | Some data => inr (inr data)
                         | None => inl ("open " +:+ path +:+ ": no such file")
                         end
|}.

#[export] Instance map_order : Go.MapOrder := {|
  Go.range_map := fun _ => map_to_list;
  Go.range_map_perm := fun _ m => reflexivity (map_to_list m)
|}.

#[export] Instance globals : Globals := {|
  debuggerTmpl := "<pre>debug</pre>";
  FileProvider := StaticProvider ∅;
  newrelicApp := false
|}.

(** A renderer that writes the [title] of the data, and one that fails
    after it wrote a part of its output. *)
Definition title_renderer : Renderer :=
  {| Render := fun w v => (w +:+ lookup_var "title" [v], None) |}.
Definition failing_renderer : Renderer :=
  {| Render := fun w v => (w +:+ "<h1>", Some "render: missing partial") |}.

#[export] Instance collaborators : Collaborators := {|
  EmptyRenderer := {| Render := fun w _ => (w, None) |};
  NoopResponse := fun _ => inr ∅;
  build_url := fun pattern _ => pattern;
  fetch := fun url => if String.eqb url "/api/x" then inr ("[]", 200)
                      else inr ("internal error", 500);
  success_status := fun code => (200 <=? code) && (code <? 300);
  status_error := fun code => "backend status " +:+ Go.fmt_d code;
  JSONDecoder := fun data => inr {[ "body" := data ]};
  JSONArrayDecoder := fun data => inr {[ "items" := data ]}
|}.

(** Decimal digits, most significant first. *)
Fixpoint digits (s : string) (acc : Z) : option (Z * string) :=
  match s with
  | String c rest =>
      let n := Z.of_nat (nat_of_ascii c) - 48 in
      if (0 <=? n) && (n <=? 9) then digits rest (10 * acc + n)
      else Some (acc, s)
  | EmptyString => Some (acc, s)
  end.

Definition unit_of (u : string) : option Z :=
  if String.eqb u "ns" then Some Go.Nanosecond
  else if String.eqb u "us" then Some Go.Microsecond
  else if String.eqb u "ms" then Some Go.Millisecond
  else if String.eqb u "s" then Some Go.Second
  else if String.eqb u "m" then Some Go.Minute
  else if String.eqb u "h" then Some Go.Hour
  else None.

(** The durations written as one unsigned integer and a unit, within
    int64; everything else is refused. *)
Definition parse_duration (s : string) : error + Go.Duration :=
  match s with
  | EmptyString => inl "time: invalid duration"
  | String c _ =>
      if (48 <=? Z.of_nat (nat_of_ascii c)) && (Z.of_nat (nat_of_ascii c) <=? 57)
      then match digits s 0 with
           | Some (v, u) =>
               match unit_of u with
               | Some k => if v * k <? 2 ^ 63 then inr (v * k)
                           else inl "time: invalid duration"
               | None => inl "time: unknown unit in duration"
               end
           | None => inl "time: invalid duration"
           end
      else inl "time: invalid duration"
  end.

#[export] Instance simple_durations : time.Parser := {|
  time.ParseDuration := parse_duration
|}.

Definition page1 : Page.t :=
  {| Page.Name := "home"; Page.Template := "page"; Page.Layout := "";
     Page.CacheTTL := "90s"; Page.BackendURLPattern := "";
     Page.IsArray := false; Page.Extra := {[ "title" := "Hello" ]} |}.

Definition page2 : Page.t :=
  {| Page.Name := "list"; Page.Template := "page"; Page.Layout := "main";
     Page.CacheTTL := "soon"; Page.BackendURLPattern := "/api/broken";
     Page.IsArray := true; Page.Extra := ∅ |}.

(** A lifetime of 194 days and 999999999 nanoseconds. *)
Definition page3 : Page.t :=
  {| Page.Name := "archive"; Page.Template := "page"; Page.Layout := "";
     Page.CacheTTL := "16777216999999999ns"; Page.BackendURLPattern := "";
     Page.IsArray := false; Page.Extra := ∅ |}.

(** A lifetime of one second and a half. *)
Definition page4 : Page.t :=
  {| Page.Name := "ticker"; Page.Template := "page"; Page.Layout := "";
     Page.CacheTTL := "1500ms"; Page.BackendURLPattern := "";
     Page.IsArray := false; Page.Extra := ∅ |}.

Definition request : Context :=
  {| Params := []; status := 200; header := ∅; body := "";
     aborted := false; Errors := [] |}.

(** A batch whose one template is malformed, and whose one layout is
    well-formed. *)
Definition broken_batch : Config :=
  {| Templates := {[ "t" := "/tmpl/broken.mustache" ]};
     Layouts := {[ "l" := "/tmpl/main.mustache" ]} |}.

(** A handler registers, receives a renderer, serves a request and registers
    again. *)
Definition session : list Event :=
  [Accept; Deliver (Some title_renderer); Request request; Accept].

(** A request comes in and generates its result while the loop waits; a
    renderer is delivered; the request is rendered; and only then the loop
    writes the renderer it received. *)
Definition overtaken : list Action :=
  [Accepted; Arrived request; Delivered (Some title_renderer); Rendered 0%nat; Stored].

(** The same, the loop writing before the request is rendered. *)
Definition caught_up : list Action :=
  [Accepted; Arrived request; Delivered (Some title_renderer); Stored; Rendered 0%nat].

(** The default pages, and the static pages of the examples. *)
#[export] Instance pages : DefaultPages := {|
  default404Tmpl := "<h1>404</h1>";
  default500Tmpl := "<h1>500</h1>"
|}.

(** A handler of the page [home] whose renderer fails. *)
Definition failing_handler : Handler.t :=
  set_Renderer (fst (NewHandler (NewHandlerConfig page1) 0%nat 1%nat))
               (Some failing_renderer).

(** A handler of the page [home] that received the title renderer. *)
Definition title_handler : Handler.t :=
  set_Renderer (fst (NewHandler (NewHandlerConfig page1) 0%nat 1%nat))
               (Some title_renderer).

(** A batch that compiles. *)
Definition good_batch : Config :=
  {| Templates := {[ "t" := "/tmpl/page.mustache" ]};
     Layouts := {[ "l" := "/tmpl/main.mustache" ]} |}.

End examples.

(** * The vocabulary of the properties *)
Module properties.
Import mustache engine.

(** The whole seconds of a duration. *)
Definition whole_seconds (d : Go.Duration) : Z := Z.quot d Go.Second.

Section Compilation.
Context `{Engine} `{os.FS} `{Go.MapOrder} `{Globals}.

(** What the body of the loop of [NewMustacheRendererMap] does with one
    path: the file is opened and its template is compiled. *)
Definition compile (path : string) : error + MustacheRenderer :=
  match os.Open path with
  | inl err => inl err
  | inr templateFile => NewMustacheRenderer templateFile
  end.

Definition compiles (path : string) : Prop :=
  exists renderer, compile path = inr renderer.

(** The entries of a configuration in the order of one execution:
    the templates, then the layouts. *)
Definition declared (cfg : Config) : list (string * string) :=
  Go.range_map 0 (Templates cfg) ++ Go.range_map 1 (Layouts cfg).
End Compilation.

(** The topic the loop holds, and whether it waits for a renderer. *)
Definition loop_topic (g : Goroutine) : string :=
  match g with
  | Sending t => t
  | Receiving t => t
  end.

Definition armed (g : Goroutine) : bool :=
  match g with
  | Sending _ => false
  | Receiving _ => true
  end.

Section Journal.
Context `{Engine} `{!Globals}.

(** The tracing calls around the others, when tracing is on. *)
Definition when_traced (calls : list Call) : list Call :=
  if newrelicApp then calls else [].
End Journal.

Section Traces.
Context `{Engine}.

(** The renderer of the handler after a trace that began with
    [current]: the last one received, if any. *)
Fixpoint renderer_after (current : option Renderer) (trace : list Label)
  : option Renderer :=
  match trace with
  | [] => current
  | Receive _ r :: rest => renderer_after r rest
  | _ :: rest => renderer_after current rest
  end.

(** The loop's operations in the trace alternate, a send of [sub] on the
    channel [registration], then a receive on the channel [private];
    [armed] tells that a subscription is out and not yet consumed. *)
Fixpoint one_shot (registration : chan) (sub : Subscription) (private : chan)
    (armed : bool) (trace : list Label) : Prop :=
  match trace with
  | [] => True
  | Send ch s :: rest =>
      armed = false /\ ch = registration /\ s = sub /\
      one_shot registration sub private true rest
  | Receive ch _ :: rest =>
      armed = true /\ ch = private /\
      one_shot registration sub private false rest
  | Serve _ _ _ _ :: rest => one_shot registration sub private armed rest
  end.

Fixpoint sends (trace : list Label) : nat :=
  match trace with
  | [] => 0
  | Send _ _ :: rest => S (sends rest)
  | _ :: rest => sends rest
  end.

Fixpoint receives (trace : list Label) : nat :=
  match trace with
  | [] => 0
  | Receive _ _ :: rest => S (receives rest)
  | _ :: rest => receives rest
  end.

(** Every subscription sent in the trace carries the topic [t]. *)
Fixpoint registers_under (t : string) (trace : list Label) : Prop :=
  match trace with
  | [] => True
  | Send _ s :: rest => topic s = t /\ registers_under t rest
  | _ :: rest => registers_under t rest
  end.

(** Every request of the trace whose generation succeeded carries the
    header [Cache-Control: value] in its response. *)
Fixpoint cache_control_attached (generate : ResponseGenerator) (value : string)
    (trace : list Label) : Prop :=
  match trace with
  | [] => True
  | Serve _ c _ e :: rest =>
      match generate c with
      | inr _ => header (ctx e) !! "Cache-Control" = Some value
      | inl _ => True
      end /\ cache_control_attached generate value rest
  | _ :: rest => cache_control_attached generate value rest
  end.
(** The inputs of as many iterations of the loop as [rs] has renderers:
    the subscription is accepted, then the renderer is delivered. *)
Definition iterations (rs : list (option Renderer)) : list Event :=
  flat_map (fun r => [Accept; Deliver r]) rs.

(** What the loop does in these iterations. *)
Definition iterations_trace (registration : chan) (sub : Subscription) (private : chan)
    (rs : list (option Renderer)) : list Label :=
  flat_map (fun r => [Send registration sub; Receive private r]) rs.
End Traces.

Section Executions.
Context `{Engine}.

(** The renderers that a journal shows were called. *)
Fixpoint called (j : list Call) : list Renderer :=
  match j with
  | [] => []
  | RenderWith r _ :: rest => r :: called rest
  | _ :: rest => called rest
  end.

(** The renderers received in an execution, the first one first. *)
Fixpoint received (trace : list Observation) : list (option Renderer) :=
  match trace with
  | [] => []
  | Received _ r :: rest => r :: received rest
  | _ :: rest => received rest
  end.

(** The renderers written to the field in an execution, the first one
    first. *)
Fixpoint wrote (trace : list Observation) : list (option Renderer) :=
  match trace with
  | [] => []
  | Wrote r :: rest => r :: wrote rest
  | _ :: rest => wrote rest
  end.




(** The renderers called by the requests of an execution, in the order in
    which the requests left [HandlerFunc]. *)
Fixpoint renderers_called (trace : list Observation) : list Renderer :=
  match trace with
  | [] => []
  | Served _ _ e :: rest => called (journal e) ++ renderers_called rest
  | _ :: rest => renderers_called rest
  end.



(** The requests answered in a run, with the outcome and the response of
    each. *)
Fixpoint answers (trace : list Label) : list (Context * outcome * Exec) :=
  match trace with
  | [] => []
  | Serve _ c o e :: rest => (c, o, e) :: answers rest
  | _ :: rest => answers rest
  end.

(** The same of an execution. *)
Fixpoint answered (trace : list Observation) : list (Context * outcome * Exec) :=
  match trace with
  | [] => []
  | Failed c e :: rest => (c, Returned, e) :: answered rest
  | Served c o e :: rest => (c, o, e) :: answered rest
  | _ :: rest => answered rest
  end.
End Executions.

End properties.

(** * More vocabulary: journals, runs without requests, compiled paths *)
Module more_properties.
Import mustache engine properties.

Section Journals.
Context `{Engine}.

Definition is_Generate (call : Call) : bool :=
  match call with Generate => true | _ => false end.
Definition is_RenderWith (call : Call) : bool :=
  match call with RenderWith _ _ => true | _ => false end.
Definition is_AbortWithError (call : Call) : bool :=
  match call with AbortWithError _ _ => true | _ => false end.
Definition is_StartSegment (call : Call) : bool :=
  match call with StartSegment _ => true | _ => false end.
Definition is_EndSegment (call : Call) : bool :=
  match call with EndSegment => true | _ => false end.
Definition is_tracing (call : Call) : bool :=
  match call with SetName _ | StartSegment _ | EndSegment => true | _ => false end.

(** How many calls of a journal are of a kind. *)
Fixpoint count (kind : Call -> bool) (j : list Call) : nat :=
  match j with
  | [] => 0
  | call :: rest => ((if kind call then 1 else 0) + count kind rest)%nat
  end.

(** Every header set in the journal is [key: value]. *)
Fixpoint sets_only (key value : string) (j : list Call) : Prop :=
  match j with
  | [] => True
  | SetHeader k v :: rest => (k = key /\ v = value) /\ sets_only key value rest
  | _ :: rest => sets_only key value rest
  end.

(** The inputs without the requests, and the trace without the requests
    served: what the subscription loop does. *)
Fixpoint without_requests (inputs : list Event) : list Event :=
  match inputs with
  | [] => []
  | Request _ :: rest => without_requests rest
  | i :: rest => i :: without_requests rest
  end.

Fixpoint without_serves (trace : list Label) : list Label :=
  match trace with
  | [] => []
  | Serve _ _ _ _ :: rest => without_serves rest
  | l :: rest => l :: without_serves rest
  end.

(** The inputs are requests only. *)
Fixpoint requests_only (inputs : list Event) : Prop :=
  match inputs with
  | [] => True
  | Request _ :: rest => requests_only rest
  | _ :: _ => False
  end.
End Journals.

(** The context with [content] written after its body. *)
Definition written (c : Context) (content : string) : Context :=
  {| Params := Params c; status := status c; header := header c;
     body := body c +:+ content; aborted := aborted c; Errors := Errors c |}.

Section Compiled.
Context `{Engine} `{os.FS} `{Go.MapOrder} `{Globals}.

(** The renderer that the template of a path compiles to, if it does. *)
Definition renderer_of (path : string) : option MustacheRenderer :=
  match compile path with
  | inl _ => None
  | inr renderer => Some renderer
  end.
End Compiled.

End more_properties.

Import mustache engine properties examples.

(** * The partial resolver *)

Lemma partialProvider_Get_static (sp : partialProvider) (name data : string) :
  Get (statics sp) name = (data, None) -> data <> "" ->
  partialProvider_Get sp name = (data, None).
Proof.
  intros Hs Hne. unfold partialProvider_Get. rewrite Hs.
  rewrite bool_decide_eq_true_2 by reflexivity.
  destruct (String.eqb_spec data ""); [contradiction | reflexivity].
Qed.

Lemma partialProvider_Get_dynamic (sp : partialProvider) (name data : string)
    (err : option error) :
  Get (statics sp) name = (data, err) -> err <> None \/ data = "" ->
  partialProvider_Get sp name = Get (dynamc sp) name.
Proof.
  intros Hs Hcase. unfold partialProvider_Get. rewrite Hs.
  destruct Hcase as [Herr | ->].
  - rewrite bool_decide_eq_false_2 by assumption. reflexivity.
  - rewrite String.eqb_refl, andb_false_r. reflexivity.
Qed.

(** C1.  [partialProvider.Get] returns the static pool's text when the static
    pool gives it without error and it is not empty, whatever the dynamic
    pool holds under the name; when the static pool fails, gives the empty
    text or (a [StaticProvider]) does not know the name, it returns the
    dynamic pool's text and error unchanged.  With the static pool
    [{"x": ""}] and the dynamic pool [{"x": "hello"}], [Get "x"] is
    ["hello"]. *)
Theorem partialProvider_Get_static_first :
  (forall sp name data,
      Get (statics sp) name = (data, None) -> data <> "" ->
      partialProvider_Get sp name = (data, None)) /\
  (forall sp name data err,
      Get (statics sp) name = (data, err) -> err <> None \/ data = "" ->
      partialProvider_Get sp name = Get (dynamc sp) name) /\
  (forall Partials dynamic name,
      Partials !! name = None ->
      partialProvider_Get {| statics := StaticProvider Partials; dynamc := dynamic |} name
      = Get dynamic name) /\
  partialProvider_Get {| statics := StaticProvider {[ "x" := "" ]};
                         dynamc := StaticProvider {[ "x" := "hello" ]} |} "x"
  = ("hello", None).
Proof.
  split; [exact partialProvider_Get_static |].
  split; [exact partialProvider_Get_dynamic |].
  split; [| reflexivity].
  intros Partials dynamic name Hnone.
  apply (partialProvider_Get_dynamic
           {| statics := StaticProvider Partials; dynamc := dynamic |} name "" None);
    [| right; reflexivity].
  simpl. rewrite Hnone. reflexivity.
Qed.

(** The static text wins over a dynamic entry of the same name. *)
Lemma partialProvider_Get_static_first_witness :
  partialProvider_Get {| statics := StaticProvider {[ "x" := "static" ]};
                         dynamc := StaticProvider {[ "x" := "hello" ]} |} "x"
  = ("static", None).
Proof.
  apply (proj1 partialProvider_Get_static_first); [reflexivity | discriminate].
Defined.

(** C10.  An error of the static pool never reaches the caller of the
    combined resolver: when the static lookup fails or gives the empty text,
    the result, text and error, is the dynamic pool's; so an error that
    [partialProvider.Get] returns is the dynamic pool's result for that
    name. *)
Theorem partialProvider_Get_error_is_dynamic (sp : partialProvider) (name : string) :
  (forall data e, Get (statics sp) name = (data, Some e) ->
                  partialProvider_Get sp name = Get (dynamc sp) name) /\
  (forall err, Get (statics sp) name = ("", err) ->
               partialProvider_Get sp name = Get (dynamc sp) name) /\
  (forall data e, partialProvider_Get sp name = (data, Some e) ->
                  Get (dynamc sp) name = (data, Some e)).
Proof.
  repeat split.
  - intros data e Hs. apply (partialProvider_Get_dynamic sp name data (Some e) Hs).
    left. discriminate.
  - intros err Hs. apply (partialProvider_Get_dynamic sp name "" err Hs).
    right. reflexivity.
  - intros data e Hget. unfold partialProvider_Get in Hget.
    destruct (Get (statics sp) name) as [sdata serr].
    destruct (bool_decide (serr = None) && negb (String.eqb sdata "")).
    + discriminate.
    + exact Hget.
Qed.

(** A failing static pool in front of a failing dynamic pool: the error is
    the dynamic one. *)
Lemma partialProvider_Get_error_is_dynamic_witness :
  partialProvider_Get
    {| statics := {| Get := fun _ => ("", Some "static: broken") |};
       dynamc := {| Get := fun _ => ("", Some "dynamic: not found") |} |} "x"
  = ("", Some "dynamic: not found").
Proof.
  rewrite (proj1 (partialProvider_Get_error_is_dynamic _ "x") "" "static: broken");
    reflexivity.
Defined.


(** * The layout renderer *)

Section Layout.
Context `{Engine} `{os.FS} `{Go.MapOrder} `{Globals}.

Lemma NewLayoutMustacheRenderer_fields (t l : os.Reader) (m : LayoutMustacheRenderer) :
  NewLayoutMustacheRenderer t l = inr m ->
  newMustacheTemplate t = inr (layout_tmpl m) /\
  newMustacheTemplate l = inr (layout m).
Proof.
  unfold NewLayoutMustacheRenderer.
  destruct (newMustacheTemplate t) as [err | tm]; [discriminate |].
  destruct (newMustacheTemplate l) as [err | ly]; [discriminate |].
  intros [= <-]. split; reflexivity.
Qed.

(** C9.  Rendering with [LayoutMustacheRenderer{T, L}] is rendering [T]
    against the data alone to a content fragment, then rendering [L], to the
    sink, against the composite value whose [content] slot holds that
    fragment and which passes the data through; when the inner rendering
    fails, its error is the result and the sink is untouched.  The template
    is the inner one and the layout the outer one, as [NewLayoutMustacheRenderer]
    received them, and what the inner template is rendered against does not
    depend on the layout. *)
Theorem LayoutMustacheRenderer_Render_composition
    (T L : Template) (D : Value) (w : Writer) :
  LayoutMustacheRenderer_Render {| layout_tmpl := T; layout := L |} w D
  = match MustacheRenderer_Render {| tmpl := T |} "" D with
    | (_, Some err) => (w, Some err)
    | (content, None) =>
        FRender L w [of_string_map {[ "content" := content ]}; D]
    end
  /\ (forall content : string,
        ({[ "content" := content ]} : gmap string string) !! "content" = Some content)
  /\ (forall L' : Template,
        snd (LayoutMustacheRenderer_Render {| layout_tmpl := T; layout := L |} w D) = None ->
        snd (LayoutMustacheRenderer_Render {| layout_tmpl := T; layout := L' |} w D) = None ->
        exists content,
          MustacheRenderer_Render {| tmpl := T |} "" D = (content, None) /\
          LayoutMustacheRenderer_Render {| layout_tmpl := T; layout := L |} w D
          = FRender L w [of_string_map {[ "content" := content ]}; D] /\
          LayoutMustacheRenderer_Render {| layout_tmpl := T; layout := L' |} w D
          = FRender L' w [of_string_map {[ "content" := content ]}; D])
  /\ (forall t l m,
        newMustacheTemplate t = inr T -> newMustacheTemplate l = inr L ->
        NewLayoutMustacheRenderer t l = inr m ->
        m = {| layout_tmpl := T; layout := L |}).
Proof.
  split; [| split; [| split]].
  - unfold LayoutMustacheRenderer_Render, FRenderInLayout, MustacheRenderer_Render,
      mustache.Render.
    cbn [layout_tmpl layout tmpl].
    destruct (FRender T "" [D]) as [content [err |]]; reflexivity.
  - intros content. apply lookup_singleton_eq.
  - intros L'. unfold LayoutMustacheRenderer_Render, FRenderInLayout,
      MustacheRenderer_Render, mustache.Render. cbn [layout_tmpl layout tmpl].
    destruct (FRender T "" [D]) as [content [err |]]; cbn [snd].
    + discriminate.
    + intros _ _. exists content. repeat split.
  - intros t l m Ht Hl Hnew.
    destruct (NewLayoutMustacheRenderer_fields t l m Hnew) as [Ht' Hl'].
    rewrite Ht in Ht'. rewrite Hl in Hl'. injection Ht' as HT. injection Hl' as HL.
    destruct m as [mt ml]. cbn [layout_tmpl layout] in *. subst. reflexivity.
Qed.

End Layout.

(** In the small template system: the page in its layout, and not the layout
    in the page. *)
Example LayoutMustacheRenderer_Render_example :
  exists m,
    NewLayoutMustacheRenderer (inr "<h1>{{title}}</h1>") (inr "<body>{{content}}</body>")
    = inr m /\
    LayoutMustacheRenderer_Render m "" {[ "title" := "Hello" ]}
    = ("<body><h1>Hello</h1></body>", None).
Proof. eexists. split; reflexivity. Qed.

(** * The handler configuration: the response generator *)

Section StaticGenerator.
Context `{Engine} `{!Collaborators} `{time.Parser} `{!Globals}.

(** C8.  For a page whose backend URL pattern is empty, the response
    generator that [NewHandlerConfig] binds, and that the handler built from
    the configuration carries, succeeds on every request and returns the
    page's fixed payload, whatever the request. *)
Theorem NewHandlerConfig_static_generator (page : Page.t) :
  Page.BackendURLPattern page = "" ->
  forall c : Context,
    HandlerConfig.ResponseGenerator (NewHandlerConfig page) c = inr (Page.Extra page) /\
    forall subscriptionChan fresh,
      Handler.ResponseGenerator (fst (NewHandler (NewHandlerConfig page) subscriptionChan fresh)) c
      = inr (Page.Extra page).
Proof.
  intros Hempty c. unfold NewHandlerConfig. rewrite Hempty. simpl.
  split; [reflexivity | intros; reflexivity].
Qed.

End StaticGenerator.

(** The page [home] has no backend: its payload is what is generated. *)
Lemma NewHandlerConfig_static_generator_witness :
  HandlerConfig.ResponseGenerator (NewHandlerConfig page1) request
  = inr ({[ "title" := "Hello" ]} : gmap string string).
Proof.
  apply (NewHandlerConfig_static_generator page1); reflexivity.
Defined.

(** * The request path *)

Section Requests.
Context `{Engine} `{!Globals}.

Lemma serve_generation_failed (h : Handler.t) (c : Context) (err : error) :
  Handler.ResponseGenerator h c = inl err ->
  serve h c
  = (Returned,
     {| ctx := {| Params := Params c; status := StatusInternalServerError;
                  header := header c; body := body c; aborted := true;
                  Errors := Errors c ++ [err] |};
        journal := when_traced [SetName (Page.Name (Handler.Page h))]
                   ++ [Generate; AbortWithError StatusInternalServerError err] |}).
Proof.
  intros Hgen.
  unfold serve, HandlerFunc, c_Generate, c_AbortWithError, traced, when_traced,
    record, update, bind, ret.
  destruct newrelicApp; cbn [ctx journal]; rewrite Hgen; reflexivity.
Qed.

Lemma serve_render_failed (h : Handler.t) (c : Context) (result : Value)
    (r : Renderer) (w : Writer) (err : error) :
  Handler.ResponseGenerator h c = inr result ->
  Handler.Renderer h = Some r ->
  Render r (body c) result = (w, Some err) ->
  serve h c
  = (Returned,
     {| ctx := {| Params := Params c; status := StatusInternalServerError;
                  header := if String.eqb (Handler.CacheControl h) ""
                            then delete "Cache-Control" (header c)
                            else <[ "Cache-Control" := Handler.CacheControl h ]> (header c);
                  body := w; aborted := true;
                  Errors := Errors c ++ [err] |};
        journal := when_traced [SetName (Page.Name (Handler.Page h))]
                   ++ [Generate]
                   ++ when_traced [StartSegment "Render"]
                   ++ [SetHeader "Cache-Control" (Handler.CacheControl h);
                       RenderWith r result;
                       AbortWithError StatusInternalServerError err]
                   ++ when_traced [EndSegment] |}).
Proof.
  intros Hgen Hr Hrender.
  unfold serve, HandlerFunc, c_Generate, c_Header, c_Render, c_AbortWithError,
    traced, when_traced, record, update, bind, ret.
  destruct newrelicApp; cbn [ctx journal]; rewrite Hgen, Hr;
    cbn [ctx journal body]; rewrite Hrender; reflexivity.
Qed.

(** C6.  When the response generator fails, the handler aborts the request
    with status 500 and the generator's error; the headers and the body are
    those the request came with, no [Cache-Control] is set and the renderer
    is not called: the generator is called once, then [AbortWithError].  When
    the generation succeeds and the renderer fails, the handler aborts with
    status 500 and the renderer's error, after one call of the generator and
    one call of the renderer. *)
Theorem HandlerFunc_aborts_on_failure (h : Handler.t) (c : Context) :
  (forall err,
      Handler.ResponseGenerator h c = inl err ->
      fst (serve h c) = Returned /\
      aborted (ctx (snd (serve h c))) = true /\
      status (ctx (snd (serve h c))) = 500 /\
      Errors (ctx (snd (serve h c))) = Errors c ++ [err] /\
      header (ctx (snd (serve h c))) = header c /\
      body (ctx (snd (serve h c))) = body c /\
      journal (snd (serve h c))
      = when_traced [SetName (Page.Name (Handler.Page h))]
        ++ [Generate; AbortWithError 500 err]) /\
  (forall result r w err,
      Handler.ResponseGenerator h c = inr result ->
      Handler.Renderer h = Some r ->
      Render r (body c) result = (w, Some err) ->
      fst (serve h c) = Returned /\
      aborted (ctx (snd (serve h c))) = true /\
      status (ctx (snd (serve h c))) = 500 /\
      Errors (ctx (snd (serve h c))) = Errors c ++ [err] /\
      journal (snd (serve h c))
      = when_traced [SetName (Page.Name (Handler.Page h))]
        ++ [Generate]
        ++ when_traced [StartSegment "Render"]
        ++ [SetHeader "Cache-Control" (Handler.CacheControl h);
            RenderWith r result;
            AbortWithError 500 err]
        ++ when_traced [EndSegment]).
Proof.
  split.
  - intros err Hgen. rewrite (serve_generation_failed h c err Hgen).
    repeat split.
  - intros result r w err Hgen Hr Hrender.
    rewrite (serve_render_failed h c result r w err Hgen Hr Hrender).
    repeat split.
Qed.

End Requests.

(** The backend of the page [list] answers with status 500: the request is
    aborted, and its journal shows the generator and the abort only. *)
Lemma HandlerFunc_aborts_on_failure_witness :
  let h := fst (NewHandler (NewHandlerConfig page2) 0%nat 1%nat) in
  status (ctx (snd (serve h request))) = 500 /\
  journal (snd (serve h request)) = [Generate; AbortWithError 500 "backend status 500"].
Proof.
  intros h.
  destruct (proj1 (HandlerFunc_aborts_on_failure h request) "backend status 500")
    as (_ & _ & Hstatus & _ & _ & _ & Hjournal); [reflexivity |].
  split; [exact Hstatus | exact Hjournal].
Defined.

(** * The subscription loop *)

Section Loop.
Context `{Engine} `{!Globals}.

Lemma run_cons_inv (s s'' : State) (i : Event) (rest : list Event) (trace : list Label) :
  run s (i :: rest) = Some (trace, s'') ->
  exists l s' ls,
    step s i = Some (l, s') /\ run s' rest = Some (ls, s'') /\ trace = l :: ls.
Proof.
  cbn [run]. destruct (step s i) as [[l s'] |]; [| discriminate].
  destruct (run s' rest) as [[ls s3] |] eqn:Hrest; [| discriminate].
  intros [= <- <-]. exists l, s', ls. auto.
Qed.

(** The three steps of a handler. *)
Lemma step_cases (h : Handler.t) (g : Goroutine) (i : Event) (l : Label) (s' : State) :
  step (h, g) i = Some (l, s') ->
  (i = Accept /\ armed g = false /\
   l = Send (Handler.Subscribe h)
            {| topic := loop_topic g; deliveryChannel := Handler.Input h |} /\
   s' = (h, Receiving (loop_topic g))) \/
  (exists r, i = Deliver r /\ armed g = true /\
             l = Receive (Handler.Input h) r /\
             s' = (set_Renderer h r, Sending (loop_topic g))) \/
  (exists c, i = Request c /\
             l = Serve (Handler.Renderer h) c (fst (serve h c)) (snd (serve h c)) /\
             s' = (h, g)).
Proof.
  unfold step. destruct i as [| r | c], g as [t | t]; intros Hstep;
    try discriminate Hstep.
  - injection Hstep as <- <-. left. repeat split.
  - injection Hstep as <- <-. right. left. exists r. repeat split.
  - destruct (serve h c) as [o e] eqn:Hserve. injection Hstep as <- <-.
    right. right. exists c. rewrite Hserve. repeat split.
  - destruct (serve h c) as [o e] eqn:Hserve. injection Hstep as <- <-.
    right. right. exists c. rewrite Hserve. repeat split.
Qed.

(** Induction on a run, by the three steps. *)
Ltac run_induction inputs :=
  induction inputs as [| i rest IH]; intros h g trace h' g' Hrun;
  [ injection Hrun as <- <- <-
  | apply run_cons_inv in Hrun as (l & [h1 g1] & ls & Hstep & Hrest & ->);
    apply step_cases in Hstep
      as [(-> & Harmed & -> & [= -> ->])
         | [(r & -> & Harmed & -> & [= -> ->])
           | (c & -> & -> & [= -> ->])]];
    specialize (IH _ _ _ _ _ Hrest) ].

(** What no step changes: the page, the channels, the generator, the cache
    control, and the topic of the loop. *)
Lemma run_frame (inputs : list Event) :
  forall h g trace h' g',
    run (h, g) inputs = Some (trace, (h', g')) ->
    Handler.Page h' = Handler.Page h /\
    Handler.Input h' = Handler.Input h /\
    Handler.Subscribe h' = Handler.Subscribe h /\
    Handler.ResponseGenerator h' = Handler.ResponseGenerator h /\
    Handler.CacheControl h' = Handler.CacheControl h /\
    loop_topic g' = loop_topic g.
Proof.
  run_induction inputs.
  - repeat split.
  - exact IH.
  - exact IH.
  - exact IH.
Qed.

Lemma run_one_shot (inputs : list Event) :
  forall h g trace h' g',
    run (h, g) inputs = Some (trace, (h', g')) ->
    one_shot (Handler.Subscribe h)
             {| topic := loop_topic g; deliveryChannel := Handler.Input h |}
             (Handler.Input h) (armed g) trace.
Proof.
  run_induction inputs.
  - exact I.
  - cbn [one_shot]. repeat split; [exact Harmed | exact IH].
  - cbn [one_shot]. repeat split; [exact Harmed | exact IH].
  - cbn [one_shot]. exact IH.
Qed.

Lemma run_registers_under (inputs : list Event) :
  forall h g trace h' g',
    run (h, g) inputs = Some (trace, (h', g')) ->
    registers_under (loop_topic g) trace.
Proof.
  run_induction inputs.
  - exact I.
  - cbn [registers_under]. split; [reflexivity | exact IH].
  - exact IH.
  - exact IH.
Qed.

(** The renderer of the handler is the last one received. *)
Lemma run_renderer_after (inputs : list Event) :
  forall h g trace h' g',
    run (h, g) inputs = Some (trace, (h', g')) ->
    Handler.Renderer h' = renderer_after (Handler.Renderer h) trace.
Proof.
  run_induction inputs.
  - reflexivity.
  - exact IH.
  - exact IH.
  - exact IH.
Qed.

Lemma run_counts (inputs : list Event) :
  forall h g trace h' g',
    run (h, g) inputs = Some (trace, (h', g')) ->
    (sends trace + (if armed g then 1 else 0)
     = receives trace + (if armed g' then 1 else 0))%nat.
Proof.
  run_induction inputs.
  - reflexivity.
  - rewrite Harmed. cbn [sends receives armed] in *. lia.
  - rewrite Harmed. cbn [sends receives armed] in *. lia.
  - cbn [sends receives]. exact IH.
Qed.

(** The loop goes on for ever: from the point where it sends, any number
    of iterations can be run, whatever the renderers delivered, nil
    included; each one sends the subscription, receives the renderer and
    makes it the handler's. *)
Lemma run_iterations (rs : list (option Renderer)) :
  forall (h : Handler.t) (topic : string),
    run (h, Sending topic) (iterations rs)
    = Some (iterations_trace (Handler.Subscribe h)
              {| topic := topic; deliveryChannel := Handler.Input h |}
              (Handler.Input h) rs,
            (fold_left set_Renderer rs h, Sending topic)).
Proof.
  induction rs as [| r rs IH]; intros h topic; [reflexivity |].
  change (iterations (r :: rs)) with (Accept :: Deliver r :: iterations rs).
  cbn [run step]. rewrite (IH (set_Renderer h r) topic). reflexivity.
Qed.

Lemma serve_attaches_cache_control (h : Handler.t) (c : Context) (result : Value) :
  Handler.ResponseGenerator h c = inr result ->
  Handler.CacheControl h <> "" ->
  header (ctx (snd (serve h c))) !! "Cache-Control" = Some (Handler.CacheControl h).
Proof.
  intros Hgen Hvalue.
  unfold serve, HandlerFunc, c_Generate, c_Header, c_Render, c_AbortWithError,
    traced, record, update, bind, ret.
  destruct (String.eqb_spec (Handler.CacheControl h) "") as [Heq | _];
    [contradiction |].
  destruct newrelicApp; cbn [ctx journal]; rewrite Hgen;
    (destruct (Handler.Renderer h) as [r |]; cbn [ctx journal body header snd];
     [ destruct (Render r (body c) result) as [w [err |]];
       cbn [ctx journal body header snd]
     | ]);
    apply lookup_insert_eq.
Qed.

Lemma run_cache_control (inputs : list Event) :
  forall h g trace h' g',
    run (h, g) inputs = Some (trace, (h', g')) ->
    Handler.CacheControl h <> "" ->
    cache_control_attached (Handler.ResponseGenerator h) (Handler.CacheControl h) trace.
Proof.
  run_induction inputs; intros Hvalue.
  - exact I.
  - exact (IH Hvalue).
  - exact (IH Hvalue).
  - cbn [cache_control_attached]. split; [| exact (IH Hvalue)].
    destruct (Handler.ResponseGenerator h c) as [err | result] eqn:Hgen; [exact I |].
    exact (serve_attaches_cache_control h c result Hgen Hvalue).
Qed.

End Loop.

Section Subscription.
Context `{Engine} `{!Globals}.

(** C5.  The topic of every subscription that the handler of a page sends
    is the page's template identifier when the page has no layout, and the
    layout identifier, [-:-] and the template identifier when it has one; so
    the handlers of two pages with the same template and layout register
    under the same topic. *)
Theorem updateRenderer_topic_of_page (cfg : HandlerConfig.t) (subscriptionChan fresh : chan)
    (inputs : list Event) (trace : list Label) (s' : State) :
  run (NewHandler cfg subscriptionChan fresh) inputs = Some (trace, s') ->
  let page := HandlerConfig.Page cfg in
  let h := fst (NewHandler cfg subscriptionChan fresh) in
  registers_under (updateRenderer_topic h) trace /\
  (Page.Layout page = "" -> updateRenderer_topic h = Page.Template page) /\
  (Page.Layout page <> "" ->
   updateRenderer_topic h = Page.Layout page +:+ "-:-" +:+ Page.Template page) /\
  (forall cfg2 subscriptionChan2 fresh2,
      Page.Template (HandlerConfig.Page cfg2) = Page.Template page ->
      Page.Layout (HandlerConfig.Page cfg2) = Page.Layout page ->
      updateRenderer_topic (fst (NewHandler cfg2 subscriptionChan2 fresh2))
      = updateRenderer_topic h).
Proof.
  intros Hrun page h. destruct s' as [h' g'].
  split; [exact (run_registers_under inputs _ _ _ _ _ Hrun) |].
  unfold updateRenderer_topic, h, page. cbn [NewHandler fst Handler.Page].
  repeat split.
  - intros ->. reflexivity.
  - intros Hlayout.
    destruct (String.eqb_spec (Page.Layout (HandlerConfig.Page cfg)) "");
      [contradiction | reflexivity].
  - intros cfg2 _ _ -> ->. reflexivity.
Qed.

(** C4.  The loop of the handler alternates: it sends one subscription, with
    its topic and its private channel, on the registration channel, then
    receives one renderer on the private channel, which becomes the
    handler's renderer, and only then sends again.  A subscription sent is
    followed by at most one receive: while one is out the loop does not
    register again, and while none is out it receives nothing.  The loop
    re-arms and never stops: at every point of every run the next
    operation is possible, the send when no subscription is out and the
    receive of any renderer, nil included, when one is; and from every
    point any number of further iterations can be run, each with one send
    of the same subscription and one receive, the renderer received
    becoming the handler's. *)
Theorem updateRenderer_one_shot (cfg : HandlerConfig.t) (subscriptionChan fresh : chan)
    (inputs : list Event) (trace : list Label) (h' : Handler.t) (g' : Goroutine) :
  run (NewHandler cfg subscriptionChan fresh) inputs = Some (trace, (h', g')) ->
  let h := fst (NewHandler cfg subscriptionChan fresh) in
  let sub := {| topic := updateRenderer_topic h; deliveryChannel := fresh |} in
  one_shot subscriptionChan sub fresh false trace /\
  Handler.Renderer h' = renderer_after (HandlerConfig.Renderer cfg) trace /\
  sends trace = (receives trace + (if armed g' then 1 else 0))%nat /\
  (armed g' = true -> step (h', g') Accept = None) /\
  (armed g' = false -> forall r, step (h', g') (Deliver r) = None) /\
  (armed g' = false ->
   step (h', g') Accept
   = Some (Send subscriptionChan sub, (h', Receiving (updateRenderer_topic h)))) /\
  (armed g' = true -> forall r,
   step (h', g') (Deliver r)
   = Some (Receive fresh r, (set_Renderer h' r, Sending (updateRenderer_topic h)))) /\
  (armed g' = false -> forall rs,
   run (h', g') (iterations rs)
   = Some (iterations_trace subscriptionChan sub fresh rs,
           (fold_left set_Renderer rs h', Sending (updateRenderer_topic h)))) /\
  (armed g' = true -> forall r rs,
   run (h', g') (Deliver r :: iterations rs)
   = Some (Receive fresh r :: iterations_trace subscriptionChan sub fresh rs,
           (fold_left set_Renderer rs (set_Renderer h' r),
            Sending (updateRenderer_topic h)))).
Proof.
  intros Hrun h sub. unfold NewHandler in Hrun.
  destruct (run_frame inputs _ _ _ _ _ Hrun) as (_ & Hinput & Hsubscribe & _ & _ & Htopic).
  cbn [Handler.Input Handler.Subscribe loop_topic updateRenderer] in Hinput, Hsubscribe, Htopic.
  fold h in Htopic.
  split; [exact (run_one_shot inputs _ _ _ _ _ Hrun) |].
  split; [exact (run_renderer_after inputs _ _ _ _ _ Hrun) |].
  split.
  { pose proof (run_counts inputs _ _ _ _ _ Hrun) as Hcount.
    cbn [armed updateRenderer] in Hcount. lia. }
  destruct g' as [t | t]; cbn [armed loop_topic] in *; subst t;
    repeat split; try discriminate; try reflexivity.
  - intros _. cbn [step]. rewrite Hinput, Hsubscribe. reflexivity.
  - intros _ rs. rewrite run_iterations, Hinput, Hsubscribe. reflexivity.
  - intros _ r. cbn [step]. rewrite Hinput. reflexivity.
  - intros _ r rs. cbn [run step]. rewrite run_iterations.
    cbn [set_Renderer Handler.Input Handler.Subscribe]. rewrite Hinput, Hsubscribe.
    reflexivity.
Qed.

End Subscription.

Lemma updateRenderer_topic_of_page_witness :
  exists trace s',
    run (NewHandler (NewHandlerConfig page2) 0%nat 1%nat) session = Some (trace, s') /\
    registers_under "main-:-page" trace.
Proof.
  eexists _, _. split; [reflexivity |].
  edestruct (updateRenderer_topic_of_page (NewHandlerConfig page2) 0%nat 1%nat session)
    as (Hregisters & _); [reflexivity |].
  exact Hregisters.
Defined.

Lemma updateRenderer_one_shot_witness :
  exists trace h' g',
    run (NewHandler (NewHandlerConfig page2) 0%nat 1%nat) session
    = Some (trace, (h', g')) /\
    one_shot 0%nat {| topic := "main-:-page"; deliveryChannel := 1%nat |} 1%nat false trace /\
    sends trace = 2%nat /\ receives trace = 1%nat /\
    run (h', g') (Deliver None :: iterations [Some title_renderer; None])
    = Some (Receive 1%nat None
            :: iterations_trace 0%nat
                 {| topic := "main-:-page"; deliveryChannel := 1%nat |} 1%nat
                 [Some title_renderer; None],
            (set_Renderer h' None, Sending "main-:-page")).
Proof.
  eexists _, _, _. split; [reflexivity |].
  edestruct (updateRenderer_one_shot (NewHandlerConfig page2) 0%nat 1%nat session)
    as (Halternates & _ & _ & _ & _ & _ & _ & _ & Hgoes_on); [reflexivity |].
  split; [exact Halternates |]. split; [reflexivity |]. split; [reflexivity |].
  exact (Hgoes_on eq_refl None [Some title_renderer; None]).
Defined.

(** * The handler among its goroutines *)

Section Goroutines.
Context `{Engine} `{!Globals}.

(** [HandlerFunc] is its two parts, one after the other, when nothing
    comes between them. *)
Lemma HandlerFunc_split (h : Handler.t) (s : Exec) :
  HandlerFunc h s
  = match HandlerFunc_generate h s with
    | (None, s1) => (Returned, s1)
    | (Some result, s1) => HandlerFunc_render (Handler.Renderer h) result s1
    end.
Proof.
  unfold HandlerFunc, HandlerFunc_generate, HandlerFunc_render, c_Generate, c_Header,
    c_Render, c_AbortWithError, traced, record, update, bind, ret.
  destruct newrelicApp; cbn [ctx journal];
    (destruct (Handler.ResponseGenerator h (ctx s)) as [err | result]; [reflexivity |]);
    (destruct (Handler.Renderer h) as [r |]; [| reflexivity]);
    cbn [ctx journal body];
    match goal with |- context [Render r ?w result] =>
      destruct (Render r w result) as [w' [err |]] end; reflexivity.
Qed.

Lemma HandlerFunc_generate_result (h : Handler.t) (c : Context) :
  match Handler.ResponseGenerator h c with
  | inl _ => fst (HandlerFunc_generate h {| ctx := c; journal := [] |}) = None
  | inr result => fst (HandlerFunc_generate h {| ctx := c; journal := [] |}) = Some result
  end.
Proof.
  unfold HandlerFunc_generate, c_Generate, c_Header, c_AbortWithError, traced, record,
    update, bind, ret.
  destruct newrelicApp; cbn [ctx journal];
    destruct (Handler.ResponseGenerator h c); reflexivity.
Qed.




Lemma execute_cons_inv (s s'' : System) (a : Action) (rest : list Action)
    (trace : list Observation) :
  execute s (a :: rest) = Some (trace, s'') ->
  exists o s' os,
    advance s a = Some (o, s') /\ execute s' rest = Some (os, s'') /\ trace = o :: os.
Proof.
  cbn [execute]. destruct (advance s a) as [[o s'] |]; [| discriminate].
  destruct (execute s' rest) as [[os s3] |] eqn:Hrest; [| discriminate].
  intros [= <- <-]. exists o, s', os. auto.
Qed.

Lemma execute_app (s : System) (actions1 actions2 : list Action) :
  execute s (actions1 ++ actions2)
  = match execute s actions1 with
    | None => None
    | Some (trace1, s1) =>
        match execute s1 actions2 with
        | None => None
        | Some (trace2, s2) => Some (trace1 ++ trace2, s2)
        end
    end.
Proof.
  revert s. induction actions1 as [| a rest IH]; intros s; cbn [app execute].
  - destruct (execute s actions2) as [[trace2 s2] |]; reflexivity.
  - destruct (advance s a) as [[o s'] |]; [| reflexivity].
    rewrite IH. destruct (execute s' rest) as [[trace1 s1] |]; [| reflexivity].
    destruct (execute s1 actions2) as [[trace2 s2] |]; reflexivity.
Qed.

(** The six steps of the goroutines. *)
Lemma advance_cases (s : System) (a : Action) (o : Observation) (s' : System) :
  advance s a = Some (o, s') ->
  (exists topic, a = Accepted /\ loop s = Registering topic /\
     o = Sent (Handler.Subscribe (handler s))
              {| topic := topic; deliveryChannel := Handler.Input (handler s) |} /\
     s' = {| handler := handler s; loop := Waiting topic; flights := flights s |}) \/
  (exists topic r, a = Delivered r /\ loop s = Waiting topic /\
     o = Received (Handler.Input (handler s)) r /\
     s' = {| handler := handler s; loop := Storing topic r; flights := flights s |}) \/
  (exists topic r, a = Stored /\ loop s = Storing topic r /\
     o = Wrote r /\
     s' = {| handler := set_Renderer (handler s) r; loop := Registering topic;
             flights := flights s |}) \/
  (exists c e, a = Arrived c /\
     HandlerFunc_generate (handler s) {| ctx := c; journal := [] |} = (None, e) /\
     o = Failed c e /\ s' = s) \/
  (exists c result e, a = Arrived c /\
     HandlerFunc_generate (handler s) {| ctx := c; journal := [] |} = (Some result, e) /\
     o = Began c /\
     s' = {| handler := handler s; loop := loop s;
             flights := flights s ++ [{| flight_request := c; flight_result := result;
                                         flight_exec := e |}] |}) \/
  (exists i f, a = Rendered i /\ flights s !! i = Some f /\
     o = Served (flight_request f)
                (fst (HandlerFunc_render (Handler.Renderer (handler s)) (flight_result f)
                                         (flight_exec f)))
                (snd (HandlerFunc_render (Handler.Renderer (handler s)) (flight_result f)
                                         (flight_exec f))) /\
     s' = {| handler := handler s; loop := loop s; flights := delete i (flights s) |}).
Proof.
  unfold advance. destruct a as [| r | | c | i].
  - destruct (loop s) as [topic | topic | topic r]; try discriminate.
    intros [= <- <-]. left. exists topic. auto.
  - destruct (loop s) as [topic | topic | topic r']; try discriminate.
    intros [= <- <-]. right. left. exists topic, r. auto.
  - destruct (loop s) as [topic | topic | topic r]; try discriminate.
    intros [= <- <-]. right. right. left. exists topic, r. auto.
  - destruct (HandlerFunc_generate (handler s) {| ctx := c; journal := [] |})
      as [[result |] e] eqn:Hgen; intros [= <- <-].
    + right. right. right. right. left. exists c, result, e. auto.
    + right. right. right. left. exists c, e. auto.
  - destruct (flights s !! i) as [f |] eqn:Hf; [| discriminate].
    destruct (HandlerFunc_render (Handler.Renderer (handler s)) (flight_result f)
                                 (flight_exec f)) as [o' e] eqn:Hrender.
    intros [= <- <-]. right. right. right. right. right. exists i, f. rewrite Hrender. auto.
Qed.

(** Induction on an execution, by the six steps. *)
Ltac execute_induction actions :=
  induction actions as [| a rest IH]; intros s trace s' Hexec;
  [ injection Hexec as <- <-
  | apply execute_cons_inv in Hexec as (o & s1 & os & Hstep & Hrest & ->);
    apply advance_cases in Hstep
      as [(topic & -> & Hloop & -> & ->)
         | [(topic & r & -> & Hloop & -> & ->)
           | [(topic & r & -> & Hloop & -> & ->)
             | [(c & e & -> & Hgen & -> & ->)
               | [(c & result & e & -> & Hgen & -> & ->)
                 | (i & f & -> & Hf & -> & ->)]]]]];
    specialize (IH _ _ _ Hrest) ].

(** No step changes the channels of the handler. *)
Lemma execute_frame (actions : list Action) :
  forall s trace s',
    execute s actions = Some (trace, s') ->
    Handler.Input (handler s') = Handler.Input (handler s) /\
    Handler.Subscribe (handler s') = Handler.Subscribe (handler s).
Proof.
  execute_induction actions; try exact IH. split; reflexivity.
Qed.




(** A request that comes in and runs to its end at once is answered as
    [serve] tells, whatever the loop is doing; nothing is received
    meanwhile. *)
Lemma execute_request (h : Handler.t) (g : Goroutine) (c : Context) :
  exists trace,
    execute (launch (h, g)) (schedule h [Request c]) = Some (trace, launch (h, g)) /\
    answered trace = [(c, fst (serve h c), snd (serve h c))] /\
    received trace = [] /\ wrote trace = [].
Proof.
  pose proof (HandlerFunc_split h {| ctx := c; journal := [] |}) as Hsplit.
  pose proof (HandlerFunc_generate_result h c) as Hresult.
  fold (serve h c) in Hsplit.
  unfold schedule. cbn [flat_map].
  destruct (HandlerFunc_generate h {| ctx := c; journal := [] |})
    as [[result |] e] eqn:Hgen;
    destruct (Handler.ResponseGenerator h c) as [err | result'];
    cbn [fst] in Hresult; try discriminate Hresult;
    cbn [app execute advance launch fst snd loop handler flights]; rewrite Hgen.
  - cbn [app lookup list_lookup flight_result flight_exec flight_request
         handler loop flights].
    rewrite Hsplit.
    destruct (HandlerFunc_render (Handler.Renderer h) result e) as [o' e'].
    eexists. split; [reflexivity |]. repeat split.
  - eexists. split; [reflexivity |]. rewrite Hsplit. repeat split.
Qed.

(** A run of [step] is an execution: the one in which each request runs to
    its end as soon as it has come in, and the loop writes as soon as it
    has received.  The requests get the same answers. *)
Lemma run_execute (inputs : list Event) :
  forall h g trace h' g',
    run (h, g) inputs = Some (trace, (h', g')) ->
    exists trace2,
      execute (launch (h, g)) (schedule h inputs) = Some (trace2, launch (h', g')) /\
      answered trace2 = answers trace /\
      received trace2 = wrote trace2.
Proof.
  induction inputs as [| i rest IH]; intros h g trace h' g' Hrun.
  - injection Hrun as <- <- <-. exists []. repeat split.
  - apply run_cons_inv in Hrun as (l & [h1 g1] & ls & Hstep & Hrest & ->).
    apply step_cases in Hstep
      as [(-> & Harmed & -> & [= -> ->])
         | [(r & -> & Harmed & -> & [= -> ->])
           | (c & -> & -> & [= -> ->])]];
      destruct (IH _ _ _ _ _ Hrest) as (trace2 & Hexec & Hanswers & Hwrote).
    + destruct g as [t | t]; [| discriminate Harmed].
      change (schedule h (Accept :: rest)) with (schedule h [Accept] ++ schedule h rest).
      rewrite execute_app.
      change (execute (launch (h, Sending t)) (schedule h [Accept]))
        with (Some ([Sent (Handler.Subscribe h)
                          {| topic := t; deliveryChannel := Handler.Input h |}],
                    launch (h, Receiving t))).
      cbv beta iota. cbn [loop_topic] in Hexec. rewrite Hexec.
      eexists. split; [reflexivity |]. split; assumption.
    + destruct g as [t | t]; [discriminate Harmed |].
      change (schedule h (Deliver r :: rest))
        with (schedule h [Deliver r] ++ schedule (set_Renderer h r) rest).
      rewrite execute_app.
      change (execute (launch (h, Receiving t)) (schedule h [Deliver r]))
        with (Some ([Received (Handler.Input h) r; Wrote r],
                    launch (set_Renderer h r, Sending t))).
      cbv beta iota. cbn [loop_topic] in Hexec. rewrite Hexec.
      eexists. split; [reflexivity |].
      cbn [app answered answers received wrote]. split; [assumption | f_equal; assumption].
    + assert (Hcons : schedule h (Request c :: rest)
                      = schedule h [Request c] ++ schedule h rest).
      { unfold schedule. cbn [flat_map]. rewrite app_nil_r. reflexivity. }
      rewrite Hcons, execute_app.
      destruct (execute_request h g c) as (trace1 & -> & Hone & Hnone1 & Hnone2).
      rewrite Hexec. eexists. split; [reflexivity |].
      assert (Happ : forall t1 t2, answered (t1 ++ t2) = answered t1 ++ answered t2).
      { induction t1 as [| o t1 IHt]; intros t2; [reflexivity |].
        destruct o; cbn [app answered]; rewrite ?IHt; reflexivity. }
      assert (Happ2 : forall t1 t2, received (t1 ++ t2) = received t1 ++ received t2).
      { induction t1 as [| o t1 IHt]; intros t2; [reflexivity |].
        destruct o; cbn [app received]; rewrite ?IHt; reflexivity. }
      assert (Happ3 : forall t1 t2, wrote (t1 ++ t2) = wrote t1 ++ wrote t2).
      { induction t1 as [| o t1 IHt]; intros t2; [reflexivity |].
        destruct o; cbn [app wrote]; rewrite ?IHt; reflexivity. }
      rewrite Happ, Happ2, Happ3, Hone, Hnone1, Hnone2, Hanswers, Hwrote.
      cbn [answers app]. split; reflexivity.
Qed.

End Goroutines.

Section Origin.
Context `{Engine} `{!Globals}.

End Origin.



(** A request and a delivery race.  The request of [overtaken] came in
    before the delivery and is rendered after it, with the renderer of the
    configuration: the loop had not yet written the one it received.  In
    [caught_up] the loop writes first, and the same request is rendered
    with the renderer delivered. *)
Example Handler_renderer_race :
  (exists trace s',
      execute (launch (NewHandler (NewHandlerConfig page1) 0%nat 1%nat)) overtaken
      = Some (trace, s') /\
      received trace = [Some title_renderer] /\
      renderers_called trace = [EmptyRenderer] /\
      answered trace
      = [(request, Returned,
          snd (serve (fst (NewHandler (NewHandlerConfig page1) 0%nat 1%nat)) request))]) /\
  (exists trace s',
      execute (launch (NewHandler (NewHandlerConfig page1) 0%nat 1%nat)) caught_up
      = Some (trace, s') /\
      received trace = [Some title_renderer] /\
      renderers_called trace = [title_renderer] /\
      answered trace = [(request, Returned, snd (serve title_handler request))]).
Proof.
  split; eexists _, _; (split; [reflexivity |]); repeat split.
Qed.

(** * The handler configuration: the cache control *)

(** ** The seconds of a duration *)

Lemma digits2_pos_iter (k p : positive) :
  digits2_pos (Pos.iter xO p k) = (digits2_pos p + k)%positive.
Proof.
  revert p. induction k using Pos.peano_ind; intros p.
  - cbn. lia.
  - rewrite Pos.iter_succ. cbn [digits2_pos]. rewrite IHk. lia.
Qed.

Lemma digits2_pos_lower (p : positive) :
  2 ^ (Z.pos (digits2_pos p) - 1) <= Z.pos p.
Proof.
  induction p; cbn [digits2_pos].
  - rewrite Pos2Z.inj_succ.
    replace (Z.succ (Z.pos (digits2_pos p)) - 1)
      with (Z.succ (Z.pos (digits2_pos p) - 1)) by lia.
    rewrite Z.pow_succ_r by lia. lia.
  - rewrite Pos2Z.inj_succ.
    replace (Z.succ (Z.pos (digits2_pos p)) - 1)
      with (Z.succ (Z.pos (digits2_pos p) - 1)) by lia.
    rewrite Z.pow_succ_r by lia. lia.
  - cbn. lia.
Qed.

Lemma digits2_pos_le_prec (p : positive) :
  Z.pos p < 2 ^ Go.prec -> Z.pos (digits2_pos p) <= Go.prec.
Proof.
  intros Hp. pose proof (digits2_pos_lower p) as Hlow.
  destruct (Z_le_gt_dec (Z.pos (digits2_pos p)) Go.prec) as [Hle | Hgt]; [exact Hle |].
  assert (Hmono : 2 ^ Go.prec <= 2 ^ (Z.pos (digits2_pos p) - 1)).
  { apply Z.pow_le_mono_r; unfold Go.prec in *; lia. }
  lia.
Qed.

(** An integer of at most 53 binary digits is a float64: the conversion
    shifts it, and rounds nothing away. *)
Lemma binary_round_exact (s : bool) (p : positive) :
  Z.pos (digits2_pos p) <= Go.prec ->
  exists m e,
    binary_round Go.prec Go.emax s p 0 = S754_finite s m e /\
    e <= 0 /\ Z.pos m = Z.pos p * 2 ^ (- e).
Proof.
  intros Hd. unfold binary_round.
  assert (Hfexp : fexp Go.prec Go.emax (Z.pos (digits2_pos p) + 0)
                  = Z.pos (digits2_pos p) - Go.prec).
  { unfold fexp, emin, Go.prec, Go.emax in *. lia. }
  rewrite Hfexp. unfold shl_align.
  destruct (Z.pos (digits2_pos p) - Go.prec - 0) as [| k | k] eqn:Hk; [| lia |].
  - exists p, 0. split; [| split; [lia | rewrite Z.mul_1_r; reflexivity]].
    unfold binary_round_aux, shr_fexp.
    assert (Hshift : fexp Go.prec Go.emax (Zdigits2 (Z.pos p) + 0) - 0 = 0).
    { unfold fexp, emin, Zdigits2, Go.prec, Go.emax in *. lia. }
    rewrite Hshift. cbn [shr shr_record_of_loc shr_m loc_of_shr_record round_nearest_even].
    rewrite Hshift. cbn [shr shr_record_of_loc shr_m]. reflexivity.
  - exists (Pos.iter xO p k), (Z.pos (digits2_pos p) - Go.prec).
    split; [| split; [lia |]].
    + unfold binary_round_aux, shr_fexp.
      assert (Hshift : fexp Go.prec Go.emax
                         (Zdigits2 (Z.pos (Pos.iter xO p k))
                          + (Z.pos (digits2_pos p) - Go.prec))
                       - (Z.pos (digits2_pos p) - Go.prec) = 0).
      { unfold Zdigits2. rewrite digits2_pos_iter.
        unfold fexp, emin, Go.prec, Go.emax in *. lia. }
      rewrite Hshift. cbn [shr shr_record_of_loc shr_m loc_of_shr_record round_nearest_even].
      rewrite Hshift. cbn [shr shr_record_of_loc shr_m].
      replace (Z.pos (digits2_pos p) - Go.prec <=? Go.emax - Go.prec) with true;
        [reflexivity |].
      symmetry. apply Z.leb_le. unfold Go.prec, Go.emax in *. lia.
    + change (Pos.iter xO p k) with (Zpower.shift_pos k p).
      rewrite Zpower.shift_pos_correct, Z.pow_pos_fold.
      replace (- (Z.pos (digits2_pos p) - Go.prec)) with (Z.pos k) by lia.
      lia.
Qed.

Lemma int_of_float64_finite (s : bool) (m : positive) (e : Z) (p : positive) :
  e <= 0 -> Z.pos m = Z.pos p * 2 ^ (- e) -> Z.pos p < 2 ^ Go.prec ->
  Go.int_of_float64 (S754_finite s m e) = if s then - Z.pos p else Z.pos p.
Proof.
  intros He Hm Hp. unfold Go.int_of_float64.
  assert (Hmag : (if 0 <=? e then Z.shiftl (Z.pos m) e else Z.shiftr (Z.pos m) (- e))
                 = Z.pos p).
  { destruct (Z.leb_spec 0 e).
    - replace e with 0 in * by lia. rewrite Z.shiftl_0_r, Hm. cbn. lia.
    - rewrite Z.shiftr_div_pow2 by lia. rewrite Hm.
      apply Z.div_mul. apply Z.pow_nonzero; lia. }
  rewrite Hmag.
  assert (Hbig : 2 ^ Go.prec < 2 ^ 63) by (unfold Go.prec; reflexivity).
  destruct s.
  - replace ((- 2 ^ 63 <=? - Z.pos p) && (- Z.pos p <? 2 ^ 63)) with true; [reflexivity |].
    symmetry. apply andb_true_iff. split; [apply Z.leb_le | apply Z.ltb_lt]; lia.
  - replace ((- 2 ^ 63 <=? Z.pos p) && (Z.pos p <? 2 ^ 63)) with true; [reflexivity |].
    symmetry. apply andb_true_iff. split; [apply Z.leb_le | apply Z.ltb_lt]; lia.
Qed.

(** The conversion of a 53-bit integer to float64 and back is the
    identity; the float is a zero or finite. *)
Lemma int_of_float64_of_int (n : Z) :
  - 2 ^ Go.prec < n < 2 ^ Go.prec ->
  Go.int_of_float64 (Go.float64_of_int n) = n /\
  (Go.float64_of_int n = S754_zero false \/
   exists s m e, Go.float64_of_int n = S754_finite s m e).
Proof.
  intros Hn. unfold Go.float64_of_int, binary_normalize. destruct n as [| p | p].
  - split; [reflexivity | left; reflexivity].
  - destruct (binary_round_exact false p) as (m & e & -> & He & Hm).
    { apply digits2_pos_le_prec. lia. }
    split; [| right; eauto].
    rewrite (int_of_float64_finite false m e p He Hm); [reflexivity | lia].
  - destruct (binary_round_exact true p) as (m & e & -> & He & Hm).
    { apply digits2_pos_le_prec. lia. }
    split; [| right; eauto].
    rewrite (int_of_float64_finite true m e p He Hm); [reflexivity | lia].
Qed.

(** [int(d.Seconds())] is the whole seconds of a duration of whole
    seconds. *)
Lemma int_of_Seconds_whole (d : Go.Duration) :
  - 2 ^ 63 <= d < 2 ^ 63 -> Z.rem d Go.Second = 0 ->
  Go.int_of_float64 (Go.Seconds d) = whole_seconds d.
Proof.
  intros Hd Hrem. unfold Go.Seconds, whole_seconds. rewrite Hrem.
  pose proof (Z.quot_rem' d Go.Second) as Hqr. rewrite Hrem in Hqr.
  assert (Hsec : - 2 ^ Go.prec < Z.quot d Go.Second < 2 ^ Go.prec).
  { change Go.Second with 1000000000 in *. change (2 ^ Go.prec) with 9007199254740992.
    change (2 ^ 63) with 9223372036854775808 in Hd. lia. }
  destruct (int_of_float64_of_int _ Hsec) as [Hint Hshape].
  change (Go.float64_div (Go.float64_of_int 0) (Go.float64_of_int 1000000000))
    with (S754_zero false).
  destruct Hshape as [Hz | (s & m & e & Hf)].
  - rewrite Hz in *. exact Hint.
  - rewrite Hf in *. exact Hint.
Qed.

(** The number of binary digits of a positive integer brackets it between
    two powers of two. *)
Lemma Zdigits2_bounds (z : Z) :
  0 < z -> 2 ^ (Zdigits2 z - 1) <= z < 2 ^ Zdigits2 z.
Proof.
  destruct z as [| p | p]; try lia. intros _. cbn [Zdigits2]. split.
  - apply digits2_pos_lower.
  - induction p; cbn [digits2_pos];
      [ rewrite Pos2Z.inj_succ, Z.pow_succ_r by lia; lia
      | rewrite Pos2Z.inj_succ, Z.pow_succ_r by lia; lia
      | reflexivity ].
Qed.

(** ... and is the only number that does. *)
Lemma Zdigits2_unique (z d : Z) :
  2 ^ (d - 1) <= z < 2 ^ d -> 1 <= d -> Zdigits2 z = d.
Proof.
  intros [Hlo Hhi] Hd.
  assert (Hz : 0 < z) by (pose proof (Z.pow_pos_nonneg 2 (d - 1)); lia).
  destruct (Zdigits2_bounds z Hz) as [Hlo' Hhi'].
  assert (HD : 1 <= Zdigits2 z) by (destruct z; cbn [Zdigits2]; lia).
  assert (H1 : Zdigits2 z - 1 < d).
  { apply (Z.pow_lt_mono_r_iff 2); lia. }
  assert (H2 : d - 1 < Zdigits2 z).
  { apply (Z.pow_lt_mono_r_iff 2); lia. }
  lia.
Qed.

(** One step of the right shift halves the mantissa and remembers the bit
    that fell off. *)
Lemma shr_1_spec (m : Z) (r s : bool) :
  0 <= m ->
  shr_1 (Build_shr_record m r s) = Build_shr_record (m / 2) (Z.odd m) (r || s).
Proof.
  intros Hm. destruct m as [| p | p]; [reflexivity | | lia].
  destruct p as [p | p |]; cbn [shr_1 Z.odd].
  - rewrite Pos2Z.inj_xI. replace ((2 * Z.pos p + 1) / 2) with (Z.pos p); [reflexivity |].
    apply (Z.div_unique _ _ _ 1); lia.
  - rewrite Pos2Z.inj_xO. replace (2 * Z.pos p / 2) with (Z.pos p); [reflexivity |].
    apply (Z.div_unique _ _ _ 0); lia.
  - reflexivity.
Qed.

(** The iteration over a positive number is the iteration over its
    natural number. *)
Lemma iter_pos_nat {A} (f : A -> A) (p : positive) :
  forall x, SpecFloat.iter_pos f p x = @Nat.iter (Pos.to_nat p) A f x.
Proof.
  induction p as [p IH | p IH |]; intros x; cbn [SpecFloat.iter_pos].
  - rewrite !IH, Pos2Nat.inj_xI, <- Nat.iter_add, <- Nat.iter_succ_r.
    f_equal. lia.
  - rewrite !IH, Pos2Nat.inj_xO, <- Nat.iter_add. f_equal. lia.
  - reflexivity.
Qed.

(** [n] steps of the right shift divide the mantissa by [2 ^ n]; the round
    bit is the last bit shifted out. *)
Lemma iter_shr_1_nat (n : nat) :
  forall mrs,
    0 <= shr_m mrs ->
    shr_m (@Nat.iter n shr_record shr_1 mrs) = shr_m mrs / 2 ^ Z.of_nat n /\
    (shr_r (@Nat.iter (S n) shr_record shr_1 mrs) = Z.odd (shr_m mrs / 2 ^ Z.of_nat n)).
Proof.
  assert (Hone : forall mrs, 0 <= shr_m mrs ->
            shr_m (shr_1 mrs) = shr_m mrs / 2 /\ shr_r (shr_1 mrs) = Z.odd (shr_m mrs)).
  { intros [m r s] Hm. cbn [shr_m] in *. rewrite shr_1_spec by exact Hm. split; reflexivity. }
  induction n as [| n IH]; intros mrs Hm.
  - cbn [Nat.iter nat_rect Z.of_nat]. rewrite Z.pow_0_r, Z.div_1_r.
    split; [reflexivity | apply (Hone mrs Hm)].
  - destruct (IH mrs Hm) as [H1 _].
    assert (Hm1 : 0 <= shr_m (@Nat.iter n shr_record shr_1 mrs)).
    { rewrite H1. apply Z.div_pos; [lia | apply Z.pow_pos_nonneg; lia]. }
    assert (Hm2 : shr_m (@Nat.iter (S n) shr_record shr_1 mrs) = shr_m mrs / 2 ^ Z.of_nat (S n)).
    { cbn [Nat.iter nat_rect]. fold (@Nat.iter n shr_record shr_1 mrs).
      rewrite (proj1 (Hone _ Hm1)), H1, Z.div_div by (try apply Z.pow_pos_nonneg; lia).
      rewrite Nat2Z.inj_succ, Z.pow_succ_r by lia. f_equal. lia. }
    split; [exact Hm2 |].
    change (@Nat.iter (S (S n)) shr_record shr_1 mrs) with (shr_1 (@Nat.iter (S n) shr_record shr_1 mrs)).
    assert (Hm3 : 0 <= shr_m (@Nat.iter (S n) shr_record shr_1 mrs)).
    { rewrite Hm2. apply Z.div_pos; [lia | apply Z.pow_pos_nonneg; lia]. }
    rewrite (proj2 (Hone _ Hm3)), Hm2. reflexivity.
Qed.

(** [shr] by [n] places: the mantissa is divided, the round bit is the last
    bit shifted out. *)
Lemma shr_spec (mrs : shr_record) (e n : Z) :
  0 <= shr_m mrs -> 0 <= n ->
  exists mrs',
    shr mrs e n = (mrs', e + n) /\
    shr_m mrs' = shr_m mrs / 2 ^ n /\
    (n = 0 -> mrs' = mrs) /\
    (1 <= n -> shr_r mrs' = Z.odd (shr_m mrs / 2 ^ (n - 1))).
Proof.
  intros Hm Hn. destruct n as [| p | p]; [| | lia].
  - exists mrs. cbn [shr]. rewrite Z.add_0_r, Z.pow_0_r, Z.div_1_r.
    repeat split. lia.
  - exists (SpecFloat.iter_pos shr_1 p mrs). cbn [shr]. rewrite iter_pos_nat.
    split; [reflexivity |]. split; [| split; [lia |]].
    + rewrite (proj1 (iter_shr_1_nat _ mrs Hm)), positive_nat_Z. reflexivity.
    + intros _. destruct (Pos2Nat.is_succ p) as [k Hk]. rewrite Hk.
      rewrite (proj2 (iter_shr_1_nat k mrs Hm)).
      replace (Z.pos p - 1) with (Z.of_nat k) by lia. reflexivity.
Qed.

Lemma shr_m_of_loc (m : Z) (l : location) : shr_m (shr_record_of_loc m l) = m.
Proof. destruct l as [| []]; reflexivity. Qed.

(** Rounding to nearest keeps the mantissa or adds one to it, the latter
    only when the round bit is set. *)
Lemma round_nearest_even_cases (mrs : shr_record) :
  round_nearest_even (shr_m mrs) (loc_of_shr_record mrs) = shr_m mrs \/
  (round_nearest_even (shr_m mrs) (loc_of_shr_record mrs) = shr_m mrs + 1 /\
   shr_r mrs = true).
Proof.
  destruct mrs as [m [|] [|]]; cbn [shr_m shr_r loc_of_shr_record round_nearest_even].
  - right. split; reflexivity.
  - destruct (Z.even m); [left | right]; auto.
  - left. reflexivity.
  - left. reflexivity.
Qed.

(** Dropping the [k] low digits of an integer of [53 + k] digits leaves 53
    digits. *)
Lemma div_pow2_digits (m k : Z) :
  0 < m -> 0 <= k -> Zdigits2 m = 53 + k ->
  2 ^ 52 <= m / 2 ^ k < 2 ^ 53.
Proof.
  intros Hm Hk Hd. destruct (Zdigits2_bounds m Hm) as [Hlo Hhi]. rewrite Hd in *.
  assert (Hp : 0 < 2 ^ k) by (apply Z.pow_pos_nonneg; lia).
  replace (53 + k - 1) with (52 + k) in Hlo by lia.
  rewrite Z.pow_add_r in Hlo, Hhi by lia.
  split.
  - apply Z.div_le_lower_bound; lia.
  - apply Z.div_lt_upper_bound; lia.
Qed.

(** Rounding a mantissa of [53 + k] digits to nearest: [k] bits are
    shifted out, and the mantissa that is left is kept or incremented;
    it is incremented only when the last bit shifted out is set. *)
Lemma binary_round_aux_spec (sx : bool) (mx ex k : Z) (lx : location) :
  0 < mx -> Zdigits2 mx = 53 + k -> 0 <= k ->
  -1074 <= ex + k -> ex + k + 1 <= 971 ->
  exists m e,
    binary_round_aux 53 1024 sx mx ex lx = S754_finite sx m e /\
    ex + k <= e <= ex + k + 1 /\
    2 ^ 52 <= Z.pos m < 2 ^ 53 /\
    (Z.pos m * 2 ^ (e - (ex + k)) = mx / 2 ^ k \/
     (Z.pos m * 2 ^ (e - (ex + k)) = mx / 2 ^ k + 1 /\
      (lx = loc_Exact -> 1 <= k /\ Z.odd (mx / 2 ^ (k - 1)) = true))).
Proof.
  intros Hm Hd Hk Hlow Hhigh. unfold binary_round_aux, shr_fexp.
  assert (Hn1 : fexp 53 1024 (Zdigits2 mx + ex) - ex = k).
  { rewrite Hd. unfold fexp, emin. lia. }
  rewrite Hn1.
  destruct (shr_spec (shr_record_of_loc mx lx) ex k) as (mrs & -> & Hmrs & Hzero & Hbit);
    [rewrite shr_m_of_loc; lia | exact Hk |].
  rewrite shr_m_of_loc in Hmrs, Hbit.
  pose proof (div_pow2_digits mx k Hm Hk Hd) as Hrange. rewrite <- Hmrs in Hrange.
  assert (Hup : round_nearest_even (shr_m mrs) (loc_of_shr_record mrs) = shr_m mrs + 1 ->
                lx = loc_Exact -> shr_r mrs = true ->
                1 <= k /\ Z.odd (mx / 2 ^ (k - 1)) = true).
  { intros _ -> Hr. destruct (Z.eq_dec k 0) as [Hk0 | Hk0].
    - rewrite (Hzero Hk0) in Hr. discriminate Hr.
    - split; [lia |]. rewrite <- Hbit by lia. exact Hr. }
  set (r := round_nearest_even (shr_m mrs) (loc_of_shr_record mrs)) in *.
  assert (Hr : r = shr_m mrs \/ (r = shr_m mrs + 1 /\ shr_r mrs = true))
    by apply round_nearest_even_cases.
  assert (Hrr : 2 ^ 52 <= r <= 2 ^ 53) by (destruct Hr as [-> | [-> _]]; lia).
  assert (Hcase : r = mx / 2 ^ k \/
                  (r = mx / 2 ^ k + 1 /\
                   (lx = loc_Exact -> 1 <= k /\ Z.odd (mx / 2 ^ (k - 1)) = true))).
  { rewrite <- Hmrs. destruct Hr as [-> | [Hr1 Hr2]]; [left; reflexivity |].
    right. split; [exact Hr1 |]. intros Hl. exact (Hup Hr1 Hl Hr2). }
  clearbody r. clear Hr Hup.
  destruct (Z.eq_dec r (2 ^ 53)) as [Htop | Htop].
  - assert (Hn2 : fexp 53 1024 (Zdigits2 r + (ex + k)) - (ex + k) = 1).
    { rewrite (Zdigits2_unique r 54) by (try rewrite Htop; cbn; lia).
      unfold fexp, emin. lia. }
    rewrite Hn2.
    destruct (shr_spec (shr_record_of_loc r loc_Exact) (ex + k) 1)
      as (mrs2 & -> & Hmrs2 & _ & _); [cbn [shr_record_of_loc shr_m] | |]; try lia.
    cbn [shr_record_of_loc shr_m] in Hmrs2. rewrite Htop in Hmrs2.
    change (2 ^ 53 / 2 ^ 1) with (Z.pos 4503599627370496) in Hmrs2. rewrite Hmrs2.
    replace (ex + k + 1 <=? 1024 - 53) with true by (symmetry; apply Z.leb_le; lia).
    exists 4503599627370496%positive, (ex + k + 1).
    split; [reflexivity |]. split; [lia |]. split; [cbn; lia |].
    replace (ex + k + 1 - (ex + k)) with 1 by lia.
    change (Z.pos 4503599627370496 * 2 ^ 1) with (2 ^ 53). rewrite <- Htop. exact Hcase.
  - assert (Hn2 : fexp 53 1024 (Zdigits2 r + (ex + k)) - (ex + k) = 0).
    { rewrite (Zdigits2_unique r 53) by (cbn [Z.sub]; lia).
      unfold fexp, emin. lia. }
    rewrite Hn2. cbn [shr shr_record_of_loc shr_m].
    destruct r as [| m | m]; try (cbn in Hrr; lia).
    replace (ex + k <=? 1024 - 53) with true by (symmetry; apply Z.leb_le; lia).
    exists m, (ex + k). split; [reflexivity |]. split; [lia |]. split; [lia |].
    rewrite Z.sub_diag, Z.pow_0_r, Z.mul_1_r. exact Hcase.
Qed.

(** The float64 of a positive integer below [2 ^ 53]: its mantissa is the
    integer shifted to 53 digits. *)
Lemma binary_round_int (s : bool) (p : positive) :
  Z.pos p < 2 ^ 53 ->
  exists m,
    binary_round 53 1024 s p 0 = S754_finite s m (Zdigits2 (Z.pos p) - 53) /\
    Z.pos m = Z.pos p * 2 ^ (53 - Zdigits2 (Z.pos p)) /\
    2 ^ 52 <= Z.pos m < 2 ^ 53.
Proof.
  intros Hp.
  assert (Hd : 1 <= Zdigits2 (Z.pos p) <= 53).
  { split; [cbn [Zdigits2]; lia |]. apply (digits2_pos_le_prec p). exact Hp. }
  destruct (Zdigits2_bounds (Z.pos p)) as [Hlo Hhi]; [lia |].
  set (d := Zdigits2 (Z.pos p)) in *.
  assert (Hm53 : 2 ^ 52 <= Z.pos p * 2 ^ (53 - d) < 2 ^ 53).
  { assert (E1 : 2 ^ 52 = 2 ^ (d - 1) * 2 ^ (53 - d)).
    { rewrite <- Z.pow_add_r by lia. f_equal. lia. }
    assert (E2 : 2 ^ 53 = 2 ^ d * 2 ^ (53 - d)).
    { rewrite <- Z.pow_add_r by lia. f_equal. lia. }
    rewrite E1, E2.
    assert (0 < 2 ^ (53 - d)) by (apply Z.pow_pos_nonneg; lia). nia. }
  unfold binary_round.
  assert (Hfexp : fexp 53 1024 (Z.pos (digits2_pos p) + 0) = d - 53).
  { unfold fexp, emin, d. cbn [Zdigits2] in *. lia. }
  rewrite Hfexp. unfold shl_align.
  destruct (d - 53 - 0) as [| k | k] eqn:Hk; [| lia |].
  - assert (Hd53 : Zdigits2 (Z.pos p) = 53 + 0) by (fold d; lia).
    destruct (binary_round_aux_spec s (Z.pos p) 0 0 loc_Exact
                ltac:(lia) Hd53 ltac:(lia) ltac:(lia) ltac:(lia))
      as (m & e & -> & He & Hm & Hcase).
    replace (53 - d) with 0 in * by lia. replace (d - 53) with 0 by lia.
    rewrite Z.pow_0_r, Z.div_1_r, Z.add_0_r, Z.sub_0_r in *.
    destruct Hcase as [Hc | [_ Hc]]; [| specialize (Hc eq_refl); lia].
    assert (He0 : e = 0).
    { destruct (Z.eq_dec e 0) as [-> | Hne]; [reflexivity |].
      replace e with 1 in * by lia. rewrite Z.pow_1_r in Hc. lia. }
    subst e. rewrite Z.pow_0_r, Z.mul_1_r in Hc.
    exists m. split; [reflexivity |]. split; [lia | exact Hm].
  - assert (Hshift : Z.pos (Pos.iter xO p k) = Z.pos p * 2 ^ (53 - d)).
    { change (Pos.iter xO p k) with (Zpower.shift_pos k p).
      rewrite Zpower.shift_pos_correct, Z.pow_pos_fold. replace (53 - d) with (Z.pos k) by lia. lia. }
    assert (Hdig : Zdigits2 (Z.pos (Pos.iter xO p k)) = 53 + 0).
    { rewrite Hshift. apply Zdigits2_unique; [cbn [Z.sub Z.add]; lia | lia]. }
    destruct (binary_round_aux_spec s (Z.pos (Pos.iter xO p k)) (d - 53) 0 loc_Exact
                ltac:(lia) Hdig ltac:(lia) ltac:(lia) ltac:(lia))
      as (m & e & -> & He & Hm & Hcase).
    rewrite Z.add_0_r in *. rewrite Z.pow_0_r, Z.div_1_r, Hshift in Hcase.
    destruct Hcase as [Hc | [_ Hc]]; [| specialize (Hc eq_refl); lia].
    assert (He0 : e = d - 53).
    { destruct (Z.eq_dec e (d - 53)) as [-> | Hne]; [reflexivity |].
      replace (e - (d - 53)) with 1 in * by lia. rewrite Z.pow_1_r in Hc. lia. }
    subst e. rewrite Z.sub_diag, Z.pow_0_r, Z.mul_1_r in Hc.
    exists m. split; [reflexivity |]. split; [exact Hc | exact Hm].
Qed.

(** The divisor [1e9] as a float64. *)
Lemma float64_of_int_billion :
  Go.float64_of_int 1000000000 = S754_finite false 8388608000000000 (-23).
Proof. vm_compute. reflexivity. Qed.

(** The float64 quotient of less than a billion nanoseconds by a billion
    is below [1 - 2 ^ -30]. *)
Lemma float64_div_nsec (s : bool) (n : Z) (m1 : positive) :
  0 < n < 1000000000 ->
  Z.pos m1 = n * 2 ^ (53 - Zdigits2 n) ->
  2 ^ 52 <= Z.pos m1 < 2 ^ 53 ->
  exists my ey,
    Go.float64_div (S754_finite s m1 (Zdigits2 n - 53)) (Go.float64_of_int 1000000000)
    = S754_finite s my ey /\
    ey <= -53 /\
    2 ^ 52 <= Z.pos my /\
    Z.pos my * 2 ^ 30 < (2 ^ 30 - 1) * 2 ^ (- ey).
Proof.
  intros Hn Hm1 Hm1r.
  assert (Hd : 1 <= Zdigits2 n <= 30).
  { destruct (Zdigits2_bounds n) as [Hlo Hhi]; [lia |].
    split; [destruct n; cbn [Zdigits2]; lia |].
    destruct (Z_le_gt_dec (Zdigits2 n) 30) as [Hle | Hgt]; [exact Hle |].
    assert (2 ^ 30 <= 2 ^ (Zdigits2 n - 1)) by (apply Z.pow_le_mono_r; lia).
    change (2 ^ 30) with 1073741824 in *. lia. }
  set (a := 53 - Zdigits2 n) in *.
  replace (Zdigits2 n - 53) with (- a) by (unfold a; lia).
  assert (Ha : 23 <= a <= 52) by (unfold a; lia).
  rewrite float64_of_int_billion. unfold Go.float64_div, SFdiv, SFdiv_core_binary.
  rewrite (Zdigits2_unique (Z.pos m1) 53) by (cbn [Z.sub]; lia).
  change (Zdigits2 (Z.pos 8388608000000000)) with 53.
  assert (Hmin : Z.min (fexp Go.prec Go.emax (53 + - a - (53 + -23))) (- a - -23) = - a - 30).
  { unfold fexp, emin, Go.prec, Go.emax. lia. }
  rewrite Hmin. replace (- a - -23 - (- a - 30)) with 53 by lia.
  rewrite Z.shiftl_mul_pow2 by lia.
  set (q := Z.pos m1 * 2 ^ 53 / 8388608000000000).
  assert (Hqr : Z.div_eucl (Z.pos m1 * 2 ^ 53) 8388608000000000
                = (q, Z.pos m1 * 2 ^ 53 mod 8388608000000000)).
  { unfold q, Z.div, Z.modulo.
    destruct (Z.div_eucl (Z.pos m1 * 2 ^ 53) 8388608000000000); reflexivity. }
  change (Z.pos 8388608000000000) with 8388608000000000. rewrite Hqr.
  set (P := 2 ^ a) in *.
  assert (HP : 2 ^ 23 <= P) by (apply Z.pow_le_mono_r; lia).
  assert (Hq1 : 2 ^ 52 <= q < 2 ^ 54).
  { unfold q. split.
    - apply Z.div_le_lower_bound; [lia |].
      change (2 ^ 52) with 4503599627370496 in *. change (2 ^ 53) with 9007199254740992 in *. lia.
    - apply Z.div_lt_upper_bound; [lia |].
      change (2 ^ 54) with 18014398509481984. change (2 ^ 53) with 9007199254740992 in *. lia. }
  assert (Hq2 : q * 1000000000 <= n * P * 2 ^ 30).
  { pose proof (Z.mul_div_le (Z.pos m1 * 2 ^ 53) 8388608000000000 ltac:(lia)) as Hle.
    fold q in Hle. rewrite Hm1 in Hle.
    change (2 ^ 53) with (2 ^ 30 * 8388608) in Hle.
    change (2 ^ 30) with 1073741824 in *. lia. }
  assert (Hq3 : q + 2 < (2 ^ 30 - 1) * P).
  { assert (n * P <= 999999999 * P) by (apply Z.mul_le_mono_nonneg_r; lia).
    change (2 ^ 30) with 1073741824 in *. change (2 ^ 23) with 8388608 in *. lia. }
  assert (Hk : exists k, (k = 0 \/ k = 1) /\ Zdigits2 q = 53 + k).
  { destruct (Z_lt_ge_dec q (2 ^ 53)) as [Hlt | Hge].
    - exists 0. split; [left; reflexivity |]. apply Zdigits2_unique; cbn [Z.add Z.sub]; lia.
    - exists 1. split; [right; reflexivity |]. apply Zdigits2_unique; cbn [Z.add Z.sub]; lia. }
  destruct Hk as (k & Hk01 & Hdq).
  destruct (binary_round_aux_spec (xorb s false) q (- a - 30) k
              (new_location 8388608000000000 (Z.pos m1 * 2 ^ 53 mod 8388608000000000))
              ltac:(lia) Hdq ltac:(lia) ltac:(lia) ltac:(lia))
    as (my & ey & Hres & Hey & Hmy & Hcase).
  unfold Go.prec, Go.emax. rewrite Hres, xorb_false_r.
  exists my, ey. split; [reflexivity |].
  assert (Hval : Z.pos my * 2 ^ (ey - (- a - 30 + k)) <= q / 2 ^ k + 1)
    by (destruct Hcase as [-> | [-> _]]; lia).
  assert (Hdivk : q / 2 ^ k * 2 ^ k <= q).
  { rewrite Z.mul_comm. apply Z.mul_div_le. apply Z.pow_pos_nonneg; lia. }
  set (j := ey - (- a - 30 + k)) in *.
  assert (Hj : 0 <= j <= 1) by (unfold j; lia).
  assert (Hexp : 2 ^ (- ey) * 2 ^ j * 2 ^ k = 2 ^ 30 * P).
  { unfold P. rewrite <- !Z.pow_add_r by lia. f_equal. unfold j. lia. }
  assert (Hpos1 : 0 < 2 ^ j) by (apply Z.pow_pos_nonneg; lia).
  assert (Hpos2 : 0 < 2 ^ k) by (apply Z.pow_pos_nonneg; lia).
  assert (Hk2 : 2 ^ k <= 2) by (destruct Hk01 as [-> | ->]; cbn; lia).
  assert (Hmain : Z.pos my * 2 ^ 30 < (2 ^ 30 - 1) * 2 ^ (- ey)).
  { apply (Z.mul_lt_mono_pos_r (2 ^ j * 2 ^ k)); [lia |].
    replace ((2 ^ 30 - 1) * 2 ^ (- ey) * (2 ^ j * 2 ^ k))
      with ((2 ^ 30 - 1) * (2 ^ (- ey) * 2 ^ j * 2 ^ k)) by ring.
    rewrite Hexp.
    assert (Z.pos my * 2 ^ j * 2 ^ k <= q + 2) by nia.
    change (2 ^ 30) with 1073741824 in *. nia. }
  split; [| split; [lia | exact Hmain]].
  destruct (Z_le_gt_dec ey (-53)) as [Hle | Hgt]; [exact Hle |].
  assert (2 ^ (- ey) <= 2 ^ 52) by (apply Z.pow_le_mono_r; lia).
  change (2 ^ 30) with 1073741824 in *. change (2 ^ 52) with 4503599627370496 in *. nia.
Qed.

(** The integer part of the float64 sum of whole seconds below [2 ^ 24]
    and a fraction below [1 - 2 ^ -30] is the whole seconds. *)
Lemma int_of_float64_add (s : bool) (sec : Z) (mx my : positive) (ey : Z) :
  1 <= sec < 2 ^ 24 ->
  Z.pos mx = sec * 2 ^ (53 - Zdigits2 sec) ->
  ey <= -53 ->
  2 ^ 52 <= Z.pos my ->
  Z.pos my * 2 ^ 30 < (2 ^ 30 - 1) * 2 ^ (- ey) ->
  Go.int_of_float64
    (Go.float64_add (S754_finite s mx (Zdigits2 sec - 53)) (S754_finite s my ey))
  = if s then - sec else sec.
Proof.
  intros Hsec Hmx Hey Hmy Hbound.
  destruct (Zdigits2_bounds sec) as [Hlo Hhi]; [lia |].
  assert (Hds : 1 <= Zdigits2 sec <= 24).
  { split; [destruct sec; cbn [Zdigits2]; lia |].
    destruct (Z_le_gt_dec (Zdigits2 sec) 24) as [Hle | Hgt]; [exact Hle |].
    assert (2 ^ 24 <= 2 ^ (Zdigits2 sec - 1)) by (apply Z.pow_le_mono_r; lia). lia. }
  set (ds := Zdigits2 sec) in *. set (ex := ds - 53) in *.
  replace (53 - ds) with (- ex) in Hmx by (unfold ex; lia).
  assert (Hex : -52 <= ex <= -29) by (unfold ex; lia).
  set (k := ex - ey). assert (Hk : 1 <= k) by (unfold k; lia).
  set (A := 2 ^ (- ex)) in *.
  assert (HA : 2 ^ 29 <= A) by (apply Z.pow_le_mono_r; lia).
  assert (HAk : 2 ^ (- ey) = A * 2 ^ k).
  { unfold A, k. rewrite <- Z.pow_add_r by lia. f_equal. lia. }
  assert (Hk2 : 2 ^ k = 2 * 2 ^ (k - 1)).
  { rewrite <- Z.pow_succ_r by lia. f_equal. lia. }
  assert (HK : 0 < 2 ^ (k - 1)) by (apply Z.pow_pos_nonneg; lia).
  assert (Hmy1 : Z.pos my < A * 2 ^ k).
  { rewrite <- HAk. change (2 ^ 30) with 1073741824 in Hbound.
    assert (0 < 2 ^ (- ey)) by (apply Z.pow_pos_nonneg; lia). nia. }
  unfold Go.float64_add, SFadd.
  replace (Z.min ex ey) with ey by lia.
  unfold shl_align at 1 2. rewrite Z.sub_diag.
  destruct (ey - ex) as [| d | d] eqn:Hd; try lia.
  cbn [fst].
  assert (Hshift : Z.pos (Pos.iter xO mx d) = sec * A * 2 ^ k).
  { change (Pos.iter xO mx d) with (Zpower.shift_pos d mx).
    rewrite Zpower.shift_pos_correct, Z.pow_pos_fold, Hmx.
    replace (Z.pos d) with k by (unfold k; lia). ring. }
  set (M := (Pos.iter xO mx d + my)%positive).
  assert (HM : Z.pos M = sec * A * 2 ^ k + Z.pos my).
  { unfold M. rewrite Pos2Z.inj_add, Hshift. reflexivity. }
  assert (Hsum : cond_Zopp s (Z.pos (Pos.iter xO mx d)) + cond_Zopp s (Z.pos my)
                 = cond_Zopp s (Z.pos M)).
  { unfold M. destruct s; cbn [cond_Zopp]; lia. }
  rewrite Hsum.
  assert (Hnorm : binary_normalize Go.prec Go.emax (cond_Zopp s (Z.pos M)) ey false
                  = binary_round Go.prec Go.emax s M ey).
  { destruct s; reflexivity. }
  rewrite Hnorm. unfold binary_round.
  assert (HdM : Zdigits2 (Z.pos M) = 53 + k).
  { apply Zdigits2_unique; [| lia]. rewrite HM.
    replace (53 + k - 1) with ((ds - 1) + (- ex) + k) by (unfold ex; lia).
    replace (53 + k) with (ds + (- ex) + k) by (unfold ex; lia).
    rewrite !Z.pow_add_r by lia. fold A.
    assert (0 < A) by lia. assert (0 < 2 ^ k) by lia.
    split; [nia |].
    assert (sec + 1 <= 2 ^ ds) by lia. nia. }
  assert (Hfexp : fexp Go.prec Go.emax (Z.pos (digits2_pos M) + ey) = ex).
  { change (Z.pos (digits2_pos M)) with (Zdigits2 (Z.pos M)). rewrite HdM.
    unfold fexp, emin, Go.prec, Go.emax, k. lia. }
  rewrite Hfexp. unfold shl_align.
  destruct (ex - ey) as [| d' | d'] eqn:Hd'; try lia.
  destruct (binary_round_aux_spec s (Z.pos M) ey k loc_Exact
              ltac:(lia) HdM ltac:(lia) ltac:(unfold k; lia) ltac:(unfold k; lia))
    as (m & e & Hres & He & Hm & Hcase).
  unfold Go.prec, Go.emax. rewrite Hres.
  replace (ey + k) with ex in * by (unfold k; lia).
  set (j := e - ex) in *. assert (Hj : 0 <= j <= 1) by (unfold j; lia).
  (* the mantissa left after the shift *)
  assert (Hquot : Z.pos M / 2 ^ k = sec * A + Z.pos my / 2 ^ k).
  { rewrite HM. apply Z.div_add_l. lia. }
  set (t := Z.pos my / 2 ^ k) in *.
  assert (Ht : 0 <= t < A).
  { unfold t. split; [apply Z.div_pos; lia | apply Z.div_lt_upper_bound; lia]. }
  assert (HR : exists c, 0 <= c < A /\ Z.pos m * 2 ^ j = sec * A + c).
  { destruct Hcase as [Hc | [Hc Hodd]].
    - exists t. split; [exact Ht |]. rewrite Hc, Hquot. reflexivity.
    - exists (t + 1). rewrite Hc, Hquot. split; [| ring].
      split; [lia |]. destruct (Hodd eq_refl) as [_ Hbit].
      destruct (Z_lt_ge_dec (t + 1) A) as [Hlt | Hge]; [exact Hlt | exfalso].
      assert (Hu : Z.pos M / 2 ^ (k - 1) = sec * A * 2 + Z.pos my / 2 ^ (k - 1)).
      { rewrite HM, Hk2.
        replace (sec * A * (2 * 2 ^ (k - 1))) with (sec * A * 2 * 2 ^ (k - 1)) by ring.
        apply Z.div_add_l. lia. }
      rewrite Hu in Hbit.
      set (u := Z.pos my / 2 ^ (k - 1)) in *.
      assert (Hut : u / 2 = t).
      { unfold u, t. rewrite Z.div_div by lia. rewrite Hk2. f_equal. ring. }
      replace (sec * A * 2 + u) with (u + 2 * (sec * A)) in Hbit by ring.
      rewrite Z.odd_add_mul_2 in Hbit.
      assert (Hu2 : u = 2 * t + 1).
      { rewrite <- Hut. rewrite (Z.div_mod u 2) at 1 by lia.
        rewrite Zmod_odd, Hbit. reflexivity. }
      assert (Hmyu : u * 2 ^ (k - 1) <= Z.pos my).
      { unfold u. rewrite Z.mul_comm. apply Z.mul_div_le. lia. }
      rewrite HAk, Hk2 in Hbound.
      change (2 ^ 30) with 1073741824 in Hbound. change (2 ^ 29) with 536870912 in HA.
      set (K := 2 ^ (k - 1)) in *.
      assert (HtA : t = A - 1) by lia. rewrite HtA in Hu2.
      assert (Hge2 : (2 * A - 1) * K <= Z.pos my) by (rewrite Hu2 in Hmyu; lia).
      assert (Hlin : (2 * A - 1) * K * 1073741824 < 1073741823 * (A * (2 * K))) by lia.
      nia. }
  destruct HR as (c & Hc & HRm).
  assert (Htrunc : Z.pos m / 2 ^ (- e) = sec).
  { assert (Hsplit : A = 2 ^ (- e) * 2 ^ j).
    { unfold A, j. rewrite <- Z.pow_add_r by lia. f_equal. lia. }
    assert (0 < 2 ^ j) by (apply Z.pow_pos_nonneg; lia).
    assert (0 < 2 ^ (- e)) by (apply Z.pow_pos_nonneg; lia).
    rewrite <- (Z.div_mul_cancel_r (Z.pos m) (2 ^ (- e)) (2 ^ j)) by lia.
    rewrite <- Hsplit, HRm.
    symmetry. apply (Z.div_unique_pos _ _ _ c); [lia | ring]. }
  unfold Go.int_of_float64.
  replace (0 <=? e) with false by (symmetry; apply Z.leb_gt; lia).
  rewrite Z.shiftr_div_pow2 by lia. rewrite Htrunc.
  change (2 ^ 24) with 16777216 in Hsec.
  destruct s.
  - replace ((- 2 ^ 63 <=? - sec) && (- sec <? 2 ^ 63)) with true; [reflexivity |].
    symmetry. apply andb_true_iff. split; [apply Z.leb_le | apply Z.ltb_lt];
      change (2 ^ 63) with 9223372036854775808; lia.
  - replace ((- 2 ^ 63 <=? sec) && (sec <? 2 ^ 63)) with true; [reflexivity |].
    symmetry. apply andb_true_iff. split; [apply Z.leb_le | apply Z.ltb_lt];
      change (2 ^ 63) with 9223372036854775808; lia.
Qed.

(** [int(d.Seconds())] is the whole seconds of every duration shorter than
    [2 ^ 24] seconds, of either sign. *)
Lemma int_of_Seconds_short (d : Go.Duration) :
  - (2 ^ 24 * Go.Second) < d < 2 ^ 24 * Go.Second ->
  Go.int_of_float64 (Go.Seconds d) = whole_seconds d.
Proof.
  intros Hd. change Go.Second with 1000000000 in Hd. change (2 ^ 24) with 16777216 in Hd.
  destruct (Z.eq_dec (Z.rem d Go.Second) 0) as [Hrem | Hrem].
  { apply int_of_Seconds_whole; [| exact Hrem].
    change (2 ^ 63) with 9223372036854775808. lia. }
  unfold Go.Seconds, whole_seconds.
  pose proof (Z.quot_rem' d Go.Second) as Hqr.
  change Go.Second with 1000000000 in *.
  set (sec := Z.quot d 1000000000) in *. set (nsec := Z.rem d 1000000000) in *.
  assert (Hsign : (0 < d /\ 0 <= sec < 16777216 /\ 0 < nsec < 1000000000) \/
                  (d < 0 /\ -16777216 < sec <= 0 /\ -1000000000 < nsec < 0)).
  { destruct (Z_lt_le_dec d 0) as [Hneg | Hpos].
    - right. pose proof (Z.rem_bound_pos_neg d 1000000000 ltac:(lia) ltac:(lia)) as Hb.
      fold nsec in Hb. lia.
    - left. pose proof (Z.rem_bound_pos d 1000000000 Hpos ltac:(lia)) as Hb.
      fold nsec in Hb. lia. }
  assert (Hfrac : forall (s : bool) (q : positive), Z.pos q < 1000000000 ->
            exists my ey,
              Go.float64_div (binary_round Go.prec Go.emax s q 0)
                             (Go.float64_of_int 1000000000)
              = S754_finite s my ey /\
              ey <= -53 /\ 2 ^ 52 <= Z.pos my /\
              Z.pos my * 2 ^ 30 < (2 ^ 30 - 1) * 2 ^ (- ey)).
  { intros s q Hq.
    destruct (binary_round_int s q) as (m1 & Hm1 & Hv1 & Hb1).
    { change (2 ^ 53) with 9007199254740992. lia. }
    unfold Go.prec, Go.emax. rewrite Hm1.
    apply float64_div_nsec; [lia | exact Hv1 | exact Hb1]. }
  assert (Hzero : forall (s : bool) (my : positive) (ey : Z),
            ey <= -53 -> Z.pos my * 2 ^ 30 < (2 ^ 30 - 1) * 2 ^ (- ey) ->
            Go.int_of_float64 (S754_finite s my ey) = 0).
  { intros s my ey Hey Hb. unfold Go.int_of_float64.
    replace (0 <=? ey) with false by (symmetry; apply Z.leb_gt; lia).
    rewrite Z.shiftr_div_pow2 by lia.
    assert (0 < 2 ^ (- ey)) by (apply Z.pow_pos_nonneg; lia).
    change (2 ^ 30) with 1073741824 in Hb.
    rewrite Z.div_small by lia. destruct s; reflexivity. }
  assert (Hwhole : forall (s : bool) (p : positive) my ey, Z.pos p < 16777216 ->
            ey <= -53 -> 2 ^ 52 <= Z.pos my ->
            Z.pos my * 2 ^ 30 < (2 ^ 30 - 1) * 2 ^ (- ey) ->
            Go.int_of_float64
              (Go.float64_add (binary_round Go.prec Go.emax s p 0) (S754_finite s my ey))
            = if s then Z.neg p else Z.pos p).
  { intros s p my ey Hp Hey Hmy Hb.
    destruct (binary_round_int s p) as (mx & Hmx & Hvx & _).
    { change (2 ^ 53) with 9007199254740992. lia. }
    unfold Go.prec, Go.emax. rewrite Hmx.
    rewrite (int_of_float64_add s (Z.pos p) mx my ey); try assumption.
    - destruct s; reflexivity.
    - change (2 ^ 24) with 16777216. lia. }
  unfold Go.float64_of_int at 1 2, binary_normalize.
  destruct Hsign as [(Hdpos & Hsec & Hnsec) | (Hdneg & Hsec & Hnsec)].
  - destruct nsec as [| q | q]; try lia.
    destruct (Hfrac false q ltac:(lia)) as (my & ey & -> & Hey & Hmy & Hb).
    destruct sec as [| p | p]; try lia.
    + cbn [Go.float64_add SFadd]. unfold Go.float64_add, SFadd.
      apply (Hzero false my ey Hey Hb).
    + apply (Hwhole false p my ey ltac:(lia) Hey Hmy Hb).
  - destruct nsec as [| q | q]; try lia.
    destruct (Hfrac true q ltac:(lia)) as (my & ey & -> & Hey & Hmy & Hb).
    destruct sec as [| p | p]; try lia.
    + unfold Go.float64_add, SFadd.
      apply (Hzero true my ey Hey Hb).
    + apply (Hwhole true p my ey ltac:(lia) Hey Hmy Hb).
Qed.

Section CacheControl.
Context `{Engine} `{!Collaborators} `{time.Parser} `{!Globals}.

Lemma NewHandlerConfig_CacheControl (page : Page.t) :
  HandlerConfig.CacheControl (NewHandlerConfig page)
  = "public, max-age="
    +:+ Go.fmt_d (Go.int_of_float64 (Go.Seconds
          match time.ParseDuration (Page.CacheTTL page) with
          | inl _ => Go.Hour
          | inr d => d
          end)).
Proof.
  unfold NewHandlerConfig.
  destruct (String.eqb (Page.BackendURLPattern page) ""); reflexivity.
Qed.

(** C7.  [NewHandlerConfig] computes the cache control from the page's
    lifetime string.  When the string parses as a duration [d] shorter than
    [2 ^ 24] seconds, of either sign and with or without a fraction of a
    second, the value is [public, max-age=N] with [N] the whole seconds of
    [d]: the fraction is discarded.  When it does not parse, the lifetime
    is one hour and the value is [public, max-age=3600].  Every response of
    the handler built from the configuration whose generation succeeded
    carries this value in its [Cache-Control] header.  At a lifetime of
    16777216 seconds and 999999999 nanoseconds the conversion through
    float64 leaves the whole seconds: the sum of the seconds and of the
    fraction rounds up, and the value is [public, max-age=16777217]. *)
Theorem NewHandlerConfig_cache_control (page : Page.t) :
  let value := HandlerConfig.CacheControl (NewHandlerConfig page) in
  (forall d, time.ParseDuration (Page.CacheTTL page) = inr d ->
             - (2 ^ 24 * Go.Second) < d < 2 ^ 24 * Go.Second ->
             value = "public, max-age=" +:+ Go.fmt_d (whole_seconds d)) /\
  (forall err, time.ParseDuration (Page.CacheTTL page) = inl err ->
               value = "public, max-age=3600") /\
  (forall subscriptionChan fresh inputs trace s',
      run (NewHandler (NewHandlerConfig page) subscriptionChan fresh) inputs
      = Some (trace, s') ->
      cache_control_attached
        (HandlerConfig.ResponseGenerator (NewHandlerConfig page)) value trace) /\
  (time.ParseDuration (Page.CacheTTL page) = inr 16777216999999999 ->
   whole_seconds 16777216999999999 = 16777216 /\
   value = "public, max-age=16777217").
Proof.
  intros value. unfold value. split; [| split; [| split]].
  - intros d Hparse Hrange.
    rewrite NewHandlerConfig_CacheControl, Hparse, int_of_Seconds_short by assumption.
    reflexivity.
  - intros err Hparse. rewrite NewHandlerConfig_CacheControl, Hparse. reflexivity.
  - intros subscriptionChan fresh inputs trace [h' g'] Hrun.
    apply (run_cache_control inputs _ _ _ _ _ Hrun).
    cbn [Handler.CacheControl]. rewrite NewHandlerConfig_CacheControl. discriminate.
  - intros Hparse. split; [reflexivity |].
    rewrite NewHandlerConfig_CacheControl, Hparse. vm_compute. reflexivity.
Qed.

End CacheControl.

(** The page [home] lives 90 seconds; the page [ticker], whose lifetime is
    a second and a half, one second; the page [archive], 16777217 seconds,
    one more than the whole seconds of its lifetime. *)
Lemma NewHandlerConfig_cache_control_witness :
  HandlerConfig.CacheControl (NewHandlerConfig page1) = "public, max-age=90" /\
  HandlerConfig.CacheControl (NewHandlerConfig page4) = "public, max-age=1" /\
  HandlerConfig.CacheControl (NewHandlerConfig page3) = "public, max-age=16777217".
Proof.
  split; [| split].
  - rewrite (proj1 (NewHandlerConfig_cache_control page1) 90000000000);
      [reflexivity | reflexivity | vm_compute; split; reflexivity].
  - rewrite (proj1 (NewHandlerConfig_cache_control page4) 1500000000);
      [reflexivity | reflexivity | vm_compute; split; reflexivity].
  - apply (proj2 (proj2 (proj2 (NewHandlerConfig_cache_control page3)))).
    reflexivity.
Defined.

(** * The compilation of the declared templates *)

Section Batch.
Context `{Engine} `{os.FS} `{Go.MapOrder} `{Globals}.

Lemma compile_section_cons (name path : string) (rest : list (string * string))
    (result : gmap string MustacheRenderer) :
  compile_section ((name, path) :: rest) result
  = match compile path with
    | inl err => (result, Some err)
    | inr renderer => compile_section rest (<[ name := renderer ]> result)
    end.
Proof.
  cbn [compile_section]. unfold compile.
  destruct (os.Open path) as [err | templateFile]; reflexivity.
Qed.

(** The two loops are one loop over the entries, section after section. *)
Lemma compile_section_app (l1 l2 : list (string * string)) :
  forall result,
    compile_section (l1 ++ l2) result
    = match compile_section l1 result with
      | (result', None) => compile_section l2 result'
      | (result', Some err) => (result', Some err)
      end.
Proof.
  induction l1 as [| [name path] l1 IH]; intros result.
  - reflexivity.
  - rewrite <- app_comm_cons, !compile_section_cons.
    destruct (compile path) as [err | renderer]; [reflexivity | apply IH].
Qed.

Lemma NewMustacheRendererMap_declared (cfg : Config) :
  NewMustacheRendererMap cfg = compile_section (declared cfg) ∅.
Proof.
  unfold NewMustacheRendererMap, declared. cbn [compile_sections].
  rewrite compile_section_app.
  destruct (compile_section (Go.range_map 0 (Templates cfg)) ∅) as [result [err |]];
    [reflexivity |].
  destruct (compile_section (Go.range_map 1 (Layouts cfg)) result) as [result' [err |]];
    reflexivity.
Qed.

(** Entries that compile are all added. *)
Lemma compile_section_all (section : list (string * string)) :
  forall result,
    Forall (fun entry => compiles entry.2) section ->
    exists result',
      compile_section section result = (result', None) /\
      dom result' = dom result ∪ list_to_set section.*1.
Proof.
  induction section as [| [name path] rest IH]; intros result Hall.
  - exists result. split; [reflexivity |]. cbn [fmap list_fmap list_to_set foldr].
    rewrite (right_id_L ∅ (∪)). reflexivity.
  - apply Forall_cons in Hall as [[renderer Hc] Hall].
    rewrite compile_section_cons. cbn [snd] in Hc. rewrite Hc.
    destruct (IH (<[ name := renderer ]> result) Hall) as (result' & -> & Hdom).
    exists result'. split; [reflexivity |].
    rewrite Hdom, dom_insert_L, fmap_cons, list_to_set_cons. cbn [fst].
    rewrite (comm_L (∪) {[ name ]} (dom result)), (assoc_L (∪)). reflexivity.
Qed.

(** The first entry that fails ends the loop. *)
Lemma compile_section_first_failure (pre post : list (string * string))
    (name path : string) (err : error) (result : gmap string MustacheRenderer) :
  Forall (fun entry => compiles entry.2) pre ->
  compile path = inl err ->
  exists result',
    compile_section (pre ++ (name, path) :: post) result = (result', Some err) /\
    dom result' = dom result ∪ list_to_set pre.*1.
Proof.
  intros Hpre Hfail. rewrite compile_section_app.
  destruct (compile_section_all pre result Hpre) as (result' & -> & Hdom).
  exists result'. rewrite compile_section_cons, Hfail. split; [reflexivity | exact Hdom].
Qed.

Lemma declared_names (cfg : Config) :
  list_to_set (declared cfg).*1 =@{gset string} dom (Templates cfg) ∪ dom (Layouts cfg).
Proof.
  unfold declared. rewrite fmap_app, list_to_set_app_L.
  rewrite !Go.range_map_perm. unfold_leibniz. rewrite <- !dom_alt. reflexivity.
Qed.

(** C2, as the code has it.  A template that fails to open or to parse ends
    the whole batch: [NewMustacheRendererMap] returns its error with the map
    of the templates compiled before it, in the order of the execution, the
    templates before the layouts; what comes after it is not compiled.  When
    every declared template opens and parses, the map holds every declared
    name and there is no error. *)
Theorem NewMustacheRendererMap_stops_at_first_failure (cfg : Config) :
  (forall pre name path post err,
      declared cfg = pre ++ (name, path) :: post ->
      Forall (fun entry => compiles entry.2) pre ->
      compile path = inl err ->
      exists result,
        NewMustacheRendererMap cfg = (result, Some err) /\
        dom result = list_to_set pre.*1 /\
        (forall other, other ∉ pre.*1 -> result !! other = None)) /\
  (Forall (fun entry => compiles entry.2) (declared cfg) ->
   exists result,
     NewMustacheRendererMap cfg = (result, None) /\
     dom result = dom (Templates cfg) ∪ dom (Layouts cfg)).
Proof.
  split.
  - intros pre name path post err Hsplit Hpre Hfail.
    rewrite NewMustacheRendererMap_declared, Hsplit.
    destruct (compile_section_first_failure pre post name path err ∅ Hpre Hfail)
      as (result & Hrun & Hdom).
    assert (Hnames : dom result = list_to_set pre.*1).
    { rewrite Hdom, dom_empty_L, (left_id_L ∅ (∪)). reflexivity. }
    exists result. split; [exact Hrun |]. split; [exact Hnames |].
    intros other Hother. apply not_elem_of_dom. rewrite Hnames.
    rewrite elem_of_list_to_set. exact Hother.
  - intros Hall. rewrite NewMustacheRendererMap_declared.
    destruct (compile_section_all (declared cfg) ∅ Hall) as (result & Hrun & Hdom).
    exists result. split; [exact Hrun |].
    rewrite Hdom, declared_names, dom_empty_L, (left_id_L ∅ (∪)). reflexivity.
Qed.

End Batch.

(** The malformed template ends the batch before the layout is reached. *)
Lemma NewMustacheRendererMap_stops_at_first_failure_witness :
  exists result,
    NewMustacheRendererMap broken_batch = (result, Some "unclosed tag") /\
    dom result = ∅.
Proof.
  destruct (proj1 (NewMustacheRendererMap_stops_at_first_failure broken_batch)
              [] "t" "/tmpl/broken.mustache" [("l", "/tmpl/main.mustache")] "unclosed tag")
    as (result & Hrun & Hdom & _);
    [reflexivity | constructor | reflexivity |].
  exists result. split; [exact Hrun | exact Hdom].
Defined.

(** C2 as the specification states it does not hold: the layout [l] is
    declared and compiles, and it is not in the map of the batch, which the
    malformed template [t] ended. *)
Lemma NewMustacheRendererMap_aborts_batch :
  Layouts broken_batch !! "l" = Some "/tmpl/main.mustache" /\
  (exists renderer, compile "/tmpl/main.mustache" = inr renderer) /\
  compile "/tmpl/broken.mustache" = inl "unclosed tag" /\
  fst (NewMustacheRendererMap broken_batch) !! "l" = None /\
  snd (NewMustacheRendererMap broken_batch) = Some "unclosed tag".
Proof.
  split; [reflexivity |]. split; [eexists; reflexivity |].
  split; [reflexivity |]. split; reflexivity.
Qed.

(** * Further properties of [mustache.go] *)

Import more_properties.

(** X1.  Fallback chains compose: a resolver whose static pool is itself a
    resolver over [a] and [b], with [c] behind it, answers every name as the
    resolver over [a] with the resolver over [b] and [c] behind it. *)
Theorem partialProvider_Get_chain (a b c : PartialProvider) (name : string) :
  partialProvider_Get
    {| statics := partialProvider_PartialProvider {| statics := a; dynamc := b |};
       dynamc := c |} name
  = partialProvider_Get
      {| statics := a;
         dynamc := partialProvider_PartialProvider {| statics := b; dynamc := c |} |} name.
Proof.
  unfold partialProvider_Get, partialProvider_PartialProvider. cbn [statics dynamc Get].
  unfold partialProvider_Get. cbn [statics dynamc].
  destruct (Get a name) as [adata [aerr |]].
  - rewrite (bool_decide_eq_false_2 (Some aerr = None)) by discriminate.
    cbn [andb]. reflexivity.
  - rewrite (bool_decide_eq_true_2 (@None error = None)) by reflexivity. cbn [andb].
    destruct (String.eqb_spec adata "") as [-> | Hne]; cbn [negb].
    + reflexivity.
    + rewrite (bool_decide_eq_true_2 (@None error = None)) by reflexivity. cbn [andb].
      destruct (String.eqb_spec adata ""); [contradiction | reflexivity].
Qed.

Section CustomProvider.
Context `{Engine} `{!Globals}.

(** X2.  The package's resolver answers the name [api2html/debug] with the
    built-in debug template when that text is not empty, whatever the file
    provider holds under the name, and answers every other name, and the
    debug name when the built-in text is empty, as the file provider
    does. *)
Theorem customPartialProvider_Get (name : string) :
  (name = "api2html/debug" -> debuggerTmpl <> "" ->
   partialProvider_Get customPartialProvider name = (debuggerTmpl, None)) /\
  (name <> "api2html/debug" \/ debuggerTmpl = "" ->
   partialProvider_Get customPartialProvider name = Get FileProvider name).
Proof.
  split.
  - intros -> Hne. apply partialProvider_Get_static; [| exact Hne].
    cbn [customPartialProvider statics StaticProvider Get]. unfold partials.
    rewrite lookup_singleton_eq. reflexivity.
  - intros Hcase.
    destruct (decide (name = "api2html/debug")) as [-> | Hname].
    + destruct Hcase as [Hcase | Hempty]; [contradiction |].
      apply (partialProvider_Get_dynamic customPartialProvider _ debuggerTmpl None);
        [| right; exact Hempty].
      cbn [customPartialProvider statics StaticProvider Get]. unfold partials.
      rewrite lookup_singleton_eq. reflexivity.
    + apply (partialProvider_Get_dynamic customPartialProvider name "" None);
        [| right; reflexivity].
      cbn [customPartialProvider statics StaticProvider Get]. unfold partials.
      rewrite lookup_singleton_ne by congruence. reflexivity.
Qed.

(** X3.  [NewLayoutMustacheRenderer] succeeds exactly when the template and
    the layout both compile, and then holds the two compiled templates, the
    template inside and the layout outside; when the template does not
    compile its error is the result, whatever the layout. *)
Theorem NewLayoutMustacheRenderer_both (t l : os.Reader) :
  (forall m, NewLayoutMustacheRenderer t l = inr m <->
             NewMustacheRenderer t = inr {| tmpl := layout_tmpl m |} /\
             NewMustacheRenderer l = inr {| tmpl := layout m |}) /\
  (forall err, NewMustacheRenderer t = inl err ->
               NewLayoutMustacheRenderer t l = inl err) /\
  (forall tm err, NewMustacheRenderer t = inr tm -> NewMustacheRenderer l = inl err ->
                  NewLayoutMustacheRenderer t l = inl err).
Proof.
  unfold NewLayoutMustacheRenderer, NewMustacheRenderer.
  destruct (newMustacheTemplate t) as [terr | tm], (newMustacheTemplate l) as [lerr | ly];
    (split; [| split]).
  all: try (intros m; split; [discriminate | intros [Ht Hl]; discriminate]).
  all: try (intros err [= <-]; reflexivity).
  all: try (intros err; discriminate).
  all: try (intros tm' err Ht [= <-]; reflexivity).
  all: try (intros tm' err Ht; discriminate).
  - intros m. split.
    + intros [= <-]. split; reflexivity.
    + intros [[= ->] [= ->]]. destruct m; reflexivity.
Qed.

End CustomProvider.

(** The built-in debug partial of the examples wins over the files. *)
Lemma customPartialProvider_Get_witness :
  partialProvider_Get customPartialProvider "api2html/debug" = ("<pre>debug</pre>", None).
Proof.
  change "<pre>debug</pre>" with debuggerTmpl.
  apply (proj1 (customPartialProvider_Get "api2html/debug")); [reflexivity | discriminate].
Defined.

(** A page that compiles with a layout that does not. *)
Lemma NewLayoutMustacheRenderer_both_witness :
  NewLayoutMustacheRenderer (inr "<h1>{{title}}</h1>") (inr "{{content")
  = inl "unclosed tag".
Proof.
  eapply (proj2 (proj2 (NewLayoutMustacheRenderer_both
                          (inr "<h1>{{title}}</h1>") (inr "{{content"))));
    reflexivity.
Defined.

Section BatchContents.
Context `{Engine} `{os.FS} `{Go.MapOrder} `{Globals}.

Lemma range_map_elem (n : nat) (m : gmap string string) (name path : string) :
  (name, path) ∈ Go.range_map n m <-> m !! name = Some path.
Proof. rewrite Go.range_map_perm. apply elem_of_map_to_list. Qed.

Lemma range_map_NoDup (n : nat) (m : gmap string string) :
  NoDup (Go.range_map n m).*1.
Proof. rewrite Go.range_map_perm. apply NoDup_fst_map_to_list. Qed.

Lemma range_map_to_map (n : nat) (m : gmap string string) :
  list_to_map (Go.range_map n m) = m.
Proof.
  rewrite <- (list_to_map_to_list m) at 2.
  apply list_to_map_proper; [apply range_map_NoDup | apply Go.range_map_perm].
Qed.

Lemma declared_elem (cfg : Config) (name path : string) :
  (name, path) ∈ declared cfg <->
  Templates cfg !! name = Some path \/ Layouts cfg !! name = Some path.
Proof. unfold declared. rewrite elem_of_app, !range_map_elem. reflexivity. Qed.

(** A path compiles or fails. *)
Lemma compile_cases (path : string) :
  compiles path \/ exists err, compile path = inl err.
Proof.
  unfold compiles. destruct (compile path) as [err | renderer]; [right | left]; eauto.
Qed.

(** A section is compiled to its end, or has a first entry that fails. *)
Lemma first_failure (section : list (string * string)) :
  Forall (fun entry => compiles entry.2) section \/
  exists pre name path post err,
    section = pre ++ (name, path) :: post /\
    Forall (fun entry => compiles entry.2) pre /\
    compile path = inl err.
Proof.
  induction section as [| [name path] rest IH].
  - left. constructor.
  - destruct (compile_cases path) as [Hok | [err Hfail]].
    + destruct IH as [Hall | (pre & n & p & post & err & -> & Hpre & Hfail)].
      * left. constructor; assumption.
      * right. exists ((name, path) :: pre), n, p, post, err.
        repeat split; [constructor; assumption | assumption].
    + right. exists [], name, path, rest, err. repeat split; [constructor | assumption].
Qed.

(** Whatever the loop returns, what it added was compiled from an entry. *)
Lemma compile_section_sound (section : list (string * string)) :
  forall result result' e,
    compile_section section result = (result', e) ->
    forall name renderer,
      result' !! name = Some renderer ->
      result !! name = Some renderer \/
      exists path, (name, path) ∈ section /\ compile path = inr renderer.
Proof.
  induction section as [| [n p] rest IH]; intros result result' e Hrun name renderer Hin.
  - injection Hrun as <- <-. left. exact Hin.
  - rewrite compile_section_cons in Hrun.
    destruct (compile p) as [err | r] eqn:Hc.
    + injection Hrun as <- <-. left. exact Hin.
    + destruct (IH _ _ _ Hrun name renderer Hin) as [Hold | (path & Hel & Hpath)].
      * destruct (decide (n = name)) as [-> | Hne].
        -- rewrite lookup_insert_eq in Hold. injection Hold as <-.
           right. exists p. split; [left | exact Hc].
        -- rewrite lookup_insert_ne in Hold by exact Hne. left. exact Hold.
      * right. exists path. split; [right; exact Hel | exact Hpath].
Qed.

(** A section without a repeated name, compiled to its end, maps each of
    its names to the renderer of its path. *)
Lemma compile_section_lookup (section : list (string * string)) :
  forall result result',
    NoDup section.*1 ->
    compile_section section result = (result', None) ->
    forall name,
      result' !! name
      = match (list_to_map section : gmap string string) !! name with
        | Some path => renderer_of path
        | None => result !! name
        end.
Proof.
  induction section as [| [n p] rest IH]; intros result result' Hnodup Hrun name.
  - injection Hrun as <-. reflexivity.
  - rewrite compile_section_cons in Hrun.
    rewrite fmap_cons in Hnodup. apply NoDup_cons in Hnodup as [Hfresh Hnodup].
    destruct (compile p) as [err | r] eqn:Hc; [discriminate |].
    rewrite (IH _ _ Hnodup Hrun name). cbn [list_to_map foldr uncurry].
    destruct (decide (n = name)) as [-> | Hne].
    + rewrite lookup_insert_eq.
      rewrite (not_elem_of_list_to_map_1 rest name Hfresh).
      rewrite lookup_insert_eq. unfold renderer_of. cbn [snd]. rewrite Hc. reflexivity.
    + rewrite !(lookup_insert_ne _ n name) by exact Hne. reflexivity.
Qed.

End BatchContents.

Section BatchProperties.
Context `{Engine} `{os.FS} `{Go.MapOrder} `{Globals}.

Lemma declared_all_compile (cfg : Config) :
  Forall (fun entry => compiles entry.2) (declared cfg) <->
  (forall name path,
      Templates cfg !! name = Some path \/ Layouts cfg !! name = Some path ->
      compiles path).
Proof.
  rewrite Forall_forall. split.
  - intros Hall name path Hdecl. apply (Hall (name, path)). apply declared_elem. exact Hdecl.
  - intros Hall [name path] Hel. apply (Hall name path). apply declared_elem. exact Hel.
Qed.

(** X4.  [NewMustacheRendererMap] returns no error exactly when every
    declared template and every declared layout opens and parses. *)
Theorem NewMustacheRendererMap_no_error_iff (cfg : Config) :
  snd (NewMustacheRendererMap cfg) = None <->
  (forall name path,
      Templates cfg !! name = Some path \/ Layouts cfg !! name = Some path ->
      compiles path).
Proof.
  rewrite <- declared_all_compile, NewMustacheRendererMap_declared.
  destruct (first_failure (declared cfg))
    as [Hall | (pre & name & path & post & err & Hsplit & Hpre & Hfail)].
  - destruct (compile_section_all (declared cfg) ∅ Hall) as (result & -> & _).
    split; [intros _; exact Hall | reflexivity].
  - rewrite Hsplit.
    destruct (compile_section_first_failure pre post name path err ∅ Hpre Hfail)
      as (result & -> & _).
    split; [discriminate |].
    intros Hall. apply Forall_app in Hall as [_ Hall].
    apply Forall_cons in Hall as [[renderer Hok] _].
    cbn [snd] in Hok. congruence.
Qed.

(** X5.  Whatever [NewMustacheRendererMap] returns, with or without an
    error, every renderer of its map was compiled from the path that a
    template or a layout declares under that name, and its error is the
    failure of a declared path. *)
Theorem NewMustacheRendererMap_sound (cfg : Config) :
  (forall name renderer,
      fst (NewMustacheRendererMap cfg) !! name = Some renderer ->
      exists path,
        (Templates cfg !! name = Some path \/ Layouts cfg !! name = Some path) /\
        compile path = inr renderer) /\
  (forall err,
      snd (NewMustacheRendererMap cfg) = Some err ->
      exists name path,
        (Templates cfg !! name = Some path \/ Layouts cfg !! name = Some path) /\
        compile path = inl err).
Proof.
  rewrite NewMustacheRendererMap_declared. split.
  - intros name renderer Hin.
    destruct (compile_section (declared cfg) ∅) as [result e] eqn:Hrun.
    destruct (compile_section_sound _ _ _ _ Hrun name renderer Hin)
      as [Hempty | (path & Hel & Hpath)].
    + rewrite lookup_empty in Hempty. discriminate.
    + exists path. split; [apply declared_elem; exact Hel | exact Hpath].
  - intros err Herr.
    destruct (first_failure (declared cfg))
      as [Hall | (pre & name & path & post & err' & Hsplit & Hpre & Hfail)].
    + destruct (compile_section_all (declared cfg) ∅ Hall) as (result & Hrun & _).
      rewrite Hrun in Herr. discriminate.
    + destruct (compile_section_first_failure pre post name path err' ∅ Hpre Hfail)
        as (result & Hrun & _).
      rewrite Hsplit, Hrun in Herr. injection Herr as <-.
      exists name, path. split; [| exact Hfail].
      apply declared_elem. rewrite Hsplit. apply elem_of_app. right. left.
Qed.

(** X6.  When every declared path compiles, the map holds, under every
    declared name, the renderer of its path; under a name that a template
    and a layout share, it holds the layout's. *)
Theorem NewMustacheRendererMap_contents (cfg : Config) :
  (forall name path,
      Templates cfg !! name = Some path \/ Layouts cfg !! name = Some path ->
      compiles path) ->
  exists result,
    NewMustacheRendererMap cfg = (result, None) /\
    forall name,
      result !! name = (Layouts cfg ∪ Templates cfg) !! name ≫= renderer_of.
Proof.
  intros Hall.
  assert (HT : Forall (fun entry => compiles entry.2) (Go.range_map 0 (Templates cfg))).
  { apply Forall_forall. intros [name path] Hel. apply (Hall name path).
    left. apply (range_map_elem 0). exact Hel. }
  assert (HL : Forall (fun entry => compiles entry.2) (Go.range_map 1 (Layouts cfg))).
  { apply Forall_forall. intros [name path] Hel. apply (Hall name path).
    right. apply (range_map_elem 1). exact Hel. }
  unfold NewMustacheRendererMap. cbn [compile_sections].
  destruct (compile_section_all _ ∅ HT) as (r1 & Hrun1 & _). rewrite Hrun1.
  destruct (compile_section_all _ r1 HL) as (r2 & Hrun2 & _). rewrite Hrun2.
  exists r2. split; [reflexivity |]. intros name.
  rewrite (compile_section_lookup _ _ _ (range_map_NoDup 1 _) Hrun2 name).
  rewrite (compile_section_lookup _ _ _ (range_map_NoDup 0 _) Hrun1 name).
  rewrite !range_map_to_map, lookup_union, lookup_empty.
  destruct (Layouts cfg !! name), (Templates cfg !! name); reflexivity.
Qed.

(** X7.  A template that fails ends the batch before any layout: whatever
    the order of the maps, the error is the failure of a template, the map
    holds template names only, and not the name of the failing template. *)
Theorem NewMustacheRendererMap_template_failure (cfg : Config) (name path : string)
    (err0 : error) :
  Templates cfg !! name = Some path ->
  compile path = inl err0 ->
  exists result err,
    NewMustacheRendererMap cfg = (result, Some err) /\
    (exists n p, Templates cfg !! n = Some p /\ compile p = inl err) /\
    dom result ⊆ dom (Templates cfg) /\
    result !! name = None.
Proof.
  intros Hdecl Hfail0.
  unfold NewMustacheRendererMap. cbn [compile_sections].
  destruct (first_failure (Go.range_map 0 (Templates cfg)))
    as [Hall | (pre & n & p & post & err & Hsplit & Hpre & Hfail)].
  - rewrite Forall_forall in Hall.
    destruct (Hall (name, path)) as [renderer Hok].
    { apply range_map_elem. exact Hdecl. }
    cbn [snd] in Hok. congruence.
  - assert (Hin : forall x q, (x, q) ∈ pre -> Templates cfg !! x = Some q).
    { intros x q Hel. apply (range_map_elem 0). rewrite Hsplit.
      apply elem_of_app. left. exact Hel. }
    destruct (compile_section_first_failure pre post n p err ∅ Hpre Hfail)
      as (result & Hrun & Hdom).
    rewrite Hsplit, Hrun. exists result, err. split; [reflexivity |].
    rewrite dom_empty_L, (left_id_L ∅ (∪)) in Hdom.
    split; [| split].
    + exists n, p. split; [| exact Hfail].
      apply (range_map_elem 0). rewrite Hsplit. apply elem_of_app. right. left.
    + intros x Hx. rewrite Hdom, elem_of_list_to_set, list_elem_of_fmap in Hx.
      destruct Hx as ([x' q] & -> & Hel). apply elem_of_dom. exists q.
      exact (Hin _ _ Hel).
    + apply not_elem_of_dom. rewrite Hdom, elem_of_list_to_set, list_elem_of_fmap.
      intros ([x' q] & Hx & Hel). cbn [fst] in Hx. subst x'.
      pose proof (Hin _ _ Hel) as Hq. rewrite Hdecl in Hq. injection Hq as <-.
      rewrite Forall_forall in Hpre. destruct (Hpre _ Hel) as [renderer Hok].
      cbn [snd] in Hok. congruence.
Qed.

End BatchProperties.

(** The batch of the examples that compiles: both names are in the map. *)
Lemma NewMustacheRendererMap_contents_witness :
  exists result,
    NewMustacheRendererMap good_batch = (result, None) /\
    result !! "l" = Some {| tmpl := [Text "<body>"; Var "content"; Text "</body>"] |}.
Proof.
  destruct (NewMustacheRendererMap_contents good_batch) as (result & Hrun & Hcontents).
  { intros name path [Hdecl | Hdecl]; unfold good_batch in Hdecl;
      cbn [Templates Layouts] in Hdecl;
      apply lookup_singleton_Some in Hdecl as [<- <-]; eexists; reflexivity. }
  exists result. split; [exact Hrun |]. rewrite Hcontents. reflexivity.
Defined.

(** The malformed template of the examples ends its batch. *)
Lemma NewMustacheRendererMap_template_failure_witness :
  exists result err,
    NewMustacheRendererMap broken_batch = (result, Some err) /\ result !! "t" = None.
Proof.
  destruct (NewMustacheRendererMap_template_failure broken_batch
              "t" "/tmpl/broken.mustache" "unclosed tag")
    as (result & err & Hrun & _ & _ & Hnone); [reflexivity | reflexivity |].
  exists result, err. split; [exact Hrun | exact Hnone].
Defined.

(** * Further properties of [handler.go]: the request path *)

Section RequestProperties.
Context `{Engine} `{!Globals}.

(** The request whose generation and rendering succeed. *)
Lemma serve_success (h : Handler.t) (c : Context) (result : Value)
    (r : Renderer) (w : Writer) :
  Handler.ResponseGenerator h c = inr result ->
  Handler.Renderer h = Some r ->
  Render r (body c) result = (w, None) ->
  serve h c
  = (Returned,
     {| ctx := {| Params := Params c; status := status c;
                  header := if String.eqb (Handler.CacheControl h) ""
                            then delete "Cache-Control" (header c)
                            else <[ "Cache-Control" := Handler.CacheControl h ]> (header c);
                  body := w; aborted := aborted c; Errors := Errors c |};
        journal := when_traced [SetName (Page.Name (Handler.Page h))]
                   ++ [Generate]
                   ++ when_traced [StartSegment "Render"]
                   ++ [SetHeader "Cache-Control" (Handler.CacheControl h);
                       RenderWith r result]
                   ++ when_traced [EndSegment] |}).
Proof.
  intros Hgen Hr Hrender.
  unfold serve, HandlerFunc, c_Generate, c_Header, c_Render, c_AbortWithError,
    traced, when_traced, record, update, bind, ret.
  destruct newrelicApp; cbn [ctx journal]; rewrite Hgen, Hr;
    cbn [ctx journal body]; rewrite Hrender; reflexivity.
Qed.

Lemma serve_nil_renderer (h : Handler.t) (c : Context) (result : Value) :
  Handler.ResponseGenerator h c = inr result ->
  Handler.Renderer h = None ->
  serve h c
  = (Panicked,
     {| ctx := {| Params := Params c; status := status c;
                  header := if String.eqb (Handler.CacheControl h) ""
                            then delete "Cache-Control" (header c)
                            else <[ "Cache-Control" := Handler.CacheControl h ]> (header c);
                  body := body c; aborted := aborted c; Errors := Errors c |};
        journal := when_traced [SetName (Page.Name (Handler.Page h))]
                   ++ [Generate]
                   ++ when_traced [StartSegment "Render"]
                   ++ [SetHeader "Cache-Control" (Handler.CacheControl h)]
                   ++ when_traced [EndSegment] |}).
Proof.
  intros Hgen Hr.
  unfold serve, HandlerFunc, c_Generate, c_Header, c_Render, c_AbortWithError,
    traced, when_traced, record, update, bind, ret.
  destruct newrelicApp; cbn [ctx journal]; rewrite Hgen, Hr; reflexivity.
Qed.

(** X8.  When the generation and the rendering succeed, [HandlerFunc]
    returns with the body that the renderer wrote after the body it found,
    with the handler's cache control in the [Cache-Control] header when it
    is not empty, and with the status code, the abort flag, the errors and
    the parameters the request came with. *)
Theorem HandlerFunc_success (h : Handler.t) (c : Context) (result : Value)
    (r : Renderer) (w : Writer) :
  Handler.ResponseGenerator h c = inr result ->
  Handler.Renderer h = Some r ->
  Render r (body c) result = (w, None) ->
  fst (serve h c) = Returned /\
  body (ctx (snd (serve h c))) = w /\
  (Handler.CacheControl h <> "" ->
   header (ctx (snd (serve h c)))
   = <[ "Cache-Control" := Handler.CacheControl h ]> (header c)) /\
  status (ctx (snd (serve h c))) = status c /\
  aborted (ctx (snd (serve h c))) = aborted c /\
  Errors (ctx (snd (serve h c))) = Errors c /\
  Params (ctx (snd (serve h c))) = Params c.
Proof.
  intros Hgen Hr Hrender. rewrite (serve_success h c result r w Hgen Hr Hrender).
  cbn [fst snd ctx body header status aborted Errors Params].
  repeat split. intros Hvalue.
  destruct (String.eqb_spec (Handler.CacheControl h) ""); [contradiction | reflexivity].
Qed.

(** X9.  A handler whose renderer is nil panics on every request whose
    generation succeeds, after it attached the cache control: the call that
    sets the [Cache-Control] header to the handler's value is the last
    call made before the panic (the deferred end of the tracing segment
    apart), and the header of the response holds the value; nothing was
    written to the body, the request is not aborted and its status code is
    not changed. *)
Theorem HandlerFunc_nil_renderer (h : Handler.t) (c : Context) (result : Value) :
  Handler.ResponseGenerator h c = inr result ->
  Handler.Renderer h = None ->
  fst (serve h c) = Panicked /\
  body (ctx (snd (serve h c))) = body c /\
  status (ctx (snd (serve h c))) = status c /\
  aborted (ctx (snd (serve h c))) = aborted c /\
  Errors (ctx (snd (serve h c))) = Errors c /\
  count is_RenderWith (journal (snd (serve h c))) = 0%nat /\
  count is_AbortWithError (journal (snd (serve h c))) = 0%nat /\
  journal (snd (serve h c))
  = when_traced [SetName (Page.Name (Handler.Page h))]
    ++ [Generate]
    ++ when_traced [StartSegment "Render"]
    ++ [SetHeader "Cache-Control" (Handler.CacheControl h)]
    ++ when_traced [EndSegment] /\
  header (ctx (snd (serve h c)))
  = (if String.eqb (Handler.CacheControl h) ""
     then delete "Cache-Control" (header c)
     else <[ "Cache-Control" := Handler.CacheControl h ]> (header c)) /\
  (Handler.CacheControl h <> "" ->
   header (ctx (snd (serve h c))) !! "Cache-Control" = Some (Handler.CacheControl h)).
Proof.
  intros Hgen Hr. rewrite (serve_nil_renderer h c result Hgen Hr).
  cbn [fst snd ctx body header status aborted Errors Params journal].
  repeat split; try (unfold when_traced; destruct newrelicApp; reflexivity).
  intros Hcc. apply String.eqb_neq in Hcc. rewrite Hcc.
  apply lookup_insert_eq.
Qed.

(** X10.  On every path of [HandlerFunc] the generator is called once, the
    renderer and [AbortWithError] at most once each, every tracing segment
    that was started is ended, and the only header set is [Cache-Control],
    to the handler's value; without a tracing application no tracing call
    is made. *)
Theorem HandlerFunc_calls (h : Handler.t) (c : Context) :
  let j := journal (snd (serve h c)) in
  count is_Generate j = 1%nat /\
  (count is_RenderWith j <= 1)%nat /\
  (count is_AbortWithError j <= 1)%nat /\
  count is_StartSegment j = count is_EndSegment j /\
  sets_only "Cache-Control" (Handler.CacheControl h) j /\
  (newrelicApp = false -> count is_tracing j = 0%nat).
Proof.
  destruct (Handler.ResponseGenerator h c) as [err | result] eqn:Hgen.
  - rewrite (serve_generation_failed h c err Hgen). cbn [snd journal].
    unfold when_traced. destruct newrelicApp; cbn; repeat split; try lia; discriminate.
  - destruct (Handler.Renderer h) as [r |] eqn:Hr.
    + destruct (Render r (body c) result) as [w [err |]] eqn:Hrender.
      * rewrite (serve_render_failed h c result r w err Hgen Hr Hrender).
        cbn [snd journal]. unfold when_traced.
        destruct newrelicApp; cbn; repeat split; try lia; discriminate.
      * rewrite (serve_success h c result r w Hgen Hr Hrender).
        cbn [snd journal]. unfold when_traced.
        destruct newrelicApp; cbn; repeat split; try lia; discriminate.
    + rewrite (serve_nil_renderer h c result Hgen Hr).
      cbn [snd journal]. unfold when_traced.
      destruct newrelicApp; cbn; repeat split; try lia; discriminate.
Qed.

End RequestProperties.

(** The handler of the page [home] with the title renderer. *)
Lemma HandlerFunc_success_witness :
  body (ctx (snd (serve title_handler request))) = "Hello" /\
  header (ctx (snd (serve title_handler request))) !! "Cache-Control"
  = Some "public, max-age=90".
Proof.
  destruct (HandlerFunc_success title_handler request {[ "title" := "Hello" ]}
              title_renderer "Hello")
    as (_ & Hbody & Hheader & _); [reflexivity | reflexivity | reflexivity |].
  split; [exact Hbody |]. rewrite Hheader by discriminate. reflexivity.
Defined.

(** The handler of the page [home] without a renderer. *)
Lemma HandlerFunc_nil_renderer_witness :
  fst (serve (set_Renderer title_handler None) request) = Panicked /\
  journal (snd (serve (set_Renderer title_handler None) request))
  = [Generate; SetHeader "Cache-Control" "public, max-age=90"] /\
  header (ctx (snd (serve (set_Renderer title_handler None) request))) !! "Cache-Control"
  = Some "public, max-age=90".
Proof.
  destruct (HandlerFunc_nil_renderer (set_Renderer title_handler None) request
              {[ "title" := "Hello" ]})
    as (Hpanic & _ & _ & _ & _ & _ & _ & Hjournal & _ & Hheader);
    [reflexivity | reflexivity |].
  split; [exact Hpanic |]. split; [exact Hjournal |].
  rewrite Hheader by discriminate. reflexivity.
Defined.

(** * Further properties of [handler.go]: the subscription loop *)

Lemma length_append (s t : string) :
  String.length (s +:+ t) = (String.length s + String.length t)%nat.
Proof.
  induction s as [| a s IH]; [reflexivity |].
  change (String a s +:+ t) with (String a (s +:+ t)).
  cbn [String.length]. rewrite IH. reflexivity.
Qed.

Lemma append_inv_tail (t : string) :
  forall s1 s2, s1 +:+ t = s2 +:+ t -> s1 = s2.
Proof.
  induction s1 as [| a s1 IH]; intros [| b s2] Heq.
  - reflexivity.
  - apply (f_equal String.length) in Heq. rewrite !length_append in Heq.
    cbn [String.length] in Heq. lia.
  - apply (f_equal String.length) in Heq. rewrite !length_append in Heq.
    cbn [String.length] in Heq. lia.
  - change (String a (s1 +:+ t) = String b (s2 +:+ t)) in Heq.
    injection Heq as -> Heq. f_equal. exact (IH _ Heq).
Qed.

Section LoopProperties.
Context `{Engine} `{!Globals}.

(** X11.  Whatever the broker delivers and whatever requests come in, the
    page, the two channels, the response generator and the cache control
    of a handler stay those of its construction: the loop writes the
    renderer and nothing else. *)
Theorem Handler_configuration_is_fixed (cfg : HandlerConfig.t)
    (subscriptionChan fresh : chan) (inputs : list Event) (trace : list Label)
    (h' : Handler.t) (g' : Goroutine) :
  run (NewHandler cfg subscriptionChan fresh) inputs = Some (trace, (h', g')) ->
  Handler.Page h' = HandlerConfig.Page cfg /\
  Handler.Input h' = fresh /\
  Handler.Subscribe h' = subscriptionChan /\
  Handler.ResponseGenerator h' = HandlerConfig.ResponseGenerator cfg /\
  Handler.CacheControl h' = HandlerConfig.CacheControl cfg.
Proof.
  intros Hrun. unfold NewHandler in Hrun.
  destruct (run_frame inputs _ _ _ _ _ Hrun) as (HP & HI & HS & HG & HC & _).
  repeat split; assumption.
Qed.

(** Induction on a run, by the three steps. *)
Ltac run_cases inputs :=
  induction inputs as [| i rest IH]; intros h g trace h' g' Hrun;
  [ injection Hrun as <- <- <-
  | apply run_cons_inv in Hrun as (l & [h1 g1] & ls & Hstep & Hrest & ->);
    apply step_cases in Hstep
      as [(-> & Harmed & -> & [= -> ->])
         | [(r & -> & Harmed & -> & [= -> ->])
           | (c & -> & -> & [= -> ->])]];
    specialize (IH _ _ _ _ _ Hrest) ].

Lemma run_without_requests (inputs : list Event) :
  forall h g trace h' g',
    run (h, g) inputs = Some (trace, (h', g')) ->
    run (h, g) (without_requests inputs) = Some (without_serves trace, (h', g')).
Proof.
  run_cases inputs.
  - reflexivity.
  - cbn [without_requests without_serves run step].
    destruct g; [| discriminate]. cbn [loop_topic] in IH. rewrite IH. reflexivity.
  - cbn [without_requests without_serves run step].
    destruct g; [discriminate |]. cbn [loop_topic] in IH. rewrite IH. reflexivity.
  - cbn [without_requests without_serves]. exact IH.
Qed.

Lemma run_requests_only (inputs : list Event) :
  forall s, requests_only inputs ->
            exists trace, run s inputs = Some (trace, s) /\
                          without_serves trace = [].
Proof.
  induction inputs as [| [| r | c] rest IH]; intros [h g] Honly; try contradiction.
  - exists []. split; reflexivity.
  - destruct (IH (h, g) Honly) as (trace & Hrun & Hnone).
    cbn [run step]. destruct (serve h c) as [o e]. rewrite Hrun.
    eexists. split; [reflexivity | exact Hnone].
Qed.

(** X12.  The request path does not act on the subscription loop: requests
    alone are always served, whatever the loop waits for, and leave the
    handler and the loop as they were; and a run without its requests is
    the same run of the loop, to the same handler. *)
Theorem requests_leave_the_loop (s : State) (inputs : list Event) :
  (requests_only inputs ->
   exists trace, run s inputs = Some (trace, s) /\ without_serves trace = []) /\
  (forall trace s',
      run s inputs = Some (trace, s') ->
      run s (without_requests inputs) = Some (without_serves trace, s')).
Proof.
  split.
  - apply run_requests_only.
  - destruct s as [h g]. intros trace [h' g']. apply run_without_requests.
Qed.

(** X13.  For one template, two layouts give the same topic only when they
    are the same layout, and none gives the topic of the template without a
    layout; for one layout, two templates give the same topic only when
    they are the same template. *)
Theorem updateRenderer_topic_injective (h1 h2 : Handler.t) :
  updateRenderer_topic h1 = updateRenderer_topic h2 ->
  (Page.Template (Handler.Page h1) = Page.Template (Handler.Page h2) ->
   Page.Layout (Handler.Page h1) = Page.Layout (Handler.Page h2)) /\
  (Page.Layout (Handler.Page h1) = Page.Layout (Handler.Page h2) ->
   Page.Template (Handler.Page h1) = Page.Template (Handler.Page h2)).
Proof.
  unfold updateRenderer_topic.
  destruct (String.eqb_spec (Page.Layout (Handler.Page h1)) "") as [HL1 | HL1],
           (String.eqb_spec (Page.Layout (Handler.Page h2)) "") as [HL2 | HL2];
    cbn [negb]; intros Htopic; split.
  - intros _. congruence.
  - intros _. exact Htopic.
  - intros HT. rewrite HT in Htopic.
    apply (f_equal String.length) in Htopic. rewrite !length_append in Htopic.
    cbn [String.length] in Htopic. lia.
  - intros HL. congruence.
  - intros HT. rewrite HT in Htopic.
    apply (f_equal String.length) in Htopic. rewrite !length_append in Htopic.
    cbn [String.length] in Htopic. lia.
  - intros HL. congruence.
  - intros HT. rewrite HT in Htopic. exact (append_inv_tail _ _ _ Htopic).
  - intros HL. rewrite HL in Htopic.
    apply (inj (String.app _)) in Htopic. apply (inj (String.app _)) in Htopic.
    exact Htopic.
Qed.

End LoopProperties.

(** The handler of the examples keeps its channels through a session. *)
Lemma Handler_configuration_is_fixed_witness :
  exists trace h' g',
    run (NewHandler (NewHandlerConfig page2) 0%nat 1%nat) session
    = Some (trace, (h', g')) /\
    Handler.Input h' = 1%nat /\ Handler.Subscribe h' = 0%nat.
Proof.
  eexists _, _, _. split; [reflexivity |].
  edestruct (Handler_configuration_is_fixed (NewHandlerConfig page2) 0%nat 1%nat session)
    as (_ & HI & HS & _); [reflexivity |].
  split; [exact HI | exact HS].
Defined.

(** Two requests before any subscription was accepted. *)
Lemma requests_leave_the_loop_witness :
  exists trace,
    run (NewHandler (NewHandlerConfig page1) 0%nat 1%nat) [Request request; Request request]
    = Some (trace, NewHandler (NewHandlerConfig page1) 0%nat 1%nat).
Proof.
  destruct (proj1 (requests_leave_the_loop
                     (NewHandler (NewHandlerConfig page1) 0%nat 1%nat)
                     [Request request; Request request]))
    as (trace & Hrun & _); [exact I |].
  exists trace. exact Hrun.
Defined.

(** Two handlers of the page [home] have one topic, and one layout. *)
Lemma updateRenderer_topic_injective_witness :
  Page.Layout (Handler.Page title_handler) = "".
Proof.
  exact (proj1 (updateRenderer_topic_injective title_handler
                  (fst (NewHandler (NewHandlerConfig page1) 0%nat 1%nat)) eq_refl)
           eq_refl).
Defined.

(** * Further properties of [handler.go]: the static and the error handlers *)

Lemma append_empty_r (s : string) : s +:+ "" = s.
Proof.
  induction s as [| a s IH]; [reflexivity |].
  change (String a s +:+ "") with (String a (s +:+ "")). rewrite IH. reflexivity.
Qed.

Section StaticProperties.
Context `{Engine} `{os.FS} `{!Globals} `{DefaultPages}.

Lemma written_empty (c : Context) : written c "" = c.
Proof. unfold written. rewrite append_empty_r. destruct c; reflexivity. Qed.

Lemma StaticHandler_HandlerFunc_ctx (e : StaticHandler) (c : Context) :
  ctx (snd (enter (StaticHandler_HandlerFunc e) c)) = written c (StaticHandler_Content e).
Proof.
  unfold enter, StaticHandler_HandlerFunc, c_Write, traced, record, update, bind, ret.
  destruct newrelicApp; reflexivity.
Qed.

(** X14.  The static handler of a readable file answers every request with
    the content of the file after the body it finds, and touches neither
    the status code, the headers, the abort flag nor the errors; for an
    unreadable file [NewStaticHandler] returns the error of the read and a
    handler that leaves the response as it is. *)
Theorem NewStaticHandler_serves_file (path : string) (c : Context) :
  (forall data,
      ioutil.ReadFile path = inr data ->
      snd (NewStaticHandler path) = None /\
      ctx (snd (enter (StaticHandler_HandlerFunc (fst (NewStaticHandler path))) c))
      = written c data) /\
  (forall err,
      ioutil.ReadFile path = inl err ->
      snd (NewStaticHandler path) = Some err /\
      ctx (snd (enter (StaticHandler_HandlerFunc (fst (NewStaticHandler path))) c)) = c).
Proof.
  split.
  - intros data Hread. rewrite StaticHandler_HandlerFunc_ctx.
    unfold NewStaticHandler. rewrite Hread. split; reflexivity.
  - intros err Hread. rewrite StaticHandler_HandlerFunc_ctx.
    unfold NewStaticHandler. rewrite Hread. cbn [fst snd StaticHandler_Content].
    split; [reflexivity | apply written_empty].
Qed.

(** The middleware after the handlers it wraps. *)
Lemma ErrorHandler_HandlerFunc_enter (e : ErrorHandler) (next : M outcome) (c : Context) :
  enter (ErrorHandler_HandlerFunc e next) c
  = match enter next c with
    | (Panicked, s) => (Panicked, s)
    | (Returned, s) =>
        if aborted (ctx s) && (status (ctx s) =? ErrorCode e)
        then (Returned, {| ctx := written (ctx s) (Content e); journal := journal s |})
        else (Returned, s)
    end.
Proof.
  unfold enter, ErrorHandler_HandlerFunc, bind.
  destruct (next {| ctx := c; journal := [] |}) as [[|] s]; [| reflexivity].
  destruct (aborted (ctx s)), (status (ctx s) =? ErrorCode e); reflexivity.
Qed.

(** X15.  An error handler for the code 500 around a page handler: when the
    generation fails the response is the error page after the body the
    request came with; when the rendering fails it is the error page after
    what the renderer had written; when both succeed, the error handler
    adds nothing.  An error handler for another code adds nothing to a
    request that came in not aborted, whatever the page handler does. *)
Theorem ErrorHandler_around_Handler (e : ErrorHandler) (h : Handler.t) (c : Context) :
  aborted c = false ->
  let wrapped := enter (ErrorHandler_HandlerFunc e (HandlerFunc h)) c in
  (ErrorCode e = 500 ->
   (forall err,
       Handler.ResponseGenerator h c = inl err ->
       fst wrapped = Returned /\
       status (ctx (snd wrapped)) = 500 /\
       body (ctx (snd wrapped)) = body c +:+ Content e) /\
   (forall result r w err,
       Handler.ResponseGenerator h c = inr result ->
       Handler.Renderer h = Some r ->
       Render r (body c) result = (w, Some err) ->
       fst wrapped = Returned /\
       status (ctx (snd wrapped)) = 500 /\
       body (ctx (snd wrapped)) = w +:+ Content e) /\
   (forall result r w,
       Handler.ResponseGenerator h c = inr result ->
       Handler.Renderer h = Some r ->
       Render r (body c) result = (w, None) ->
       wrapped = serve h c)) /\
  (ErrorCode e <> 500 -> wrapped = serve h c).
Proof.
  intros Hfresh wrapped. unfold wrapped. rewrite ErrorHandler_HandlerFunc_enter.
  change (enter (HandlerFunc h) c) with (serve h c).
  split.
  - intros Hcode. split; [| split].
    + intros err Hgen. rewrite (serve_generation_failed h c err Hgen).
      cbn [ctx aborted status andb]. rewrite Hcode. repeat split.
    + intros result r w err Hgen Hr Hrender.
      rewrite (serve_render_failed h c result r w err Hgen Hr Hrender).
      cbn [ctx aborted status andb]. rewrite Hcode. repeat split.
    + intros result r w Hgen Hr Hrender.
      rewrite (serve_success h c result r w Hgen Hr Hrender).
      cbn [ctx aborted]. rewrite Hfresh. reflexivity.
  - intros Hcode.
    assert (Hne : (StatusInternalServerError =? ErrorCode e) = false).
    { apply Z.eqb_neq. unfold StatusInternalServerError. congruence. }
    destruct (Handler.ResponseGenerator h c) as [err | result] eqn:Hgen.
    + rewrite (serve_generation_failed h c err Hgen). cbn [ctx aborted status andb].
      rewrite Hne. reflexivity.
    + destruct (Handler.Renderer h) as [r |] eqn:Hr.
      * destruct (Render r (body c) result) as [w [err |]] eqn:Hrender.
        -- rewrite (serve_render_failed h c result r w err Hgen Hr Hrender).
           cbn [ctx aborted status andb]. rewrite Hne. reflexivity.
        -- rewrite (serve_success h c result r w Hgen Hr Hrender).
           cbn [ctx aborted]. rewrite Hfresh. reflexivity.
      * rewrite (serve_nil_renderer h c result Hgen Hr). reflexivity.
Qed.

(** X16.  The error handler of a readable file, put before any handlers,
    writes the content of the file after their body exactly when they
    return with the request aborted and the status code it was built for;
    for an unreadable file [NewErrorHandler] returns the error of the read
    and a handler that changes no response. *)
Theorem NewErrorHandler_serves_file (path : string) (code : Z) (next : M outcome)
    (c : Context) :
  (forall data,
      ioutil.ReadFile path = inr data ->
      snd (NewErrorHandler path code) = None /\
      forall s, enter next c = (Returned, s) ->
                ctx (snd (enter (ErrorHandler_HandlerFunc (fst (NewErrorHandler path code))
                                                          next) c))
                = if aborted (ctx s) && (status (ctx s) =? code)
                  then written (ctx s) data
                  else ctx s) /\
  (forall err,
      ioutil.ReadFile path = inl err ->
      snd (NewErrorHandler path code) = Some err /\
      ctx (snd (enter (ErrorHandler_HandlerFunc (fst (NewErrorHandler path code)) next) c))
      = ctx (snd (enter next c))).
Proof.
  split.
  - intros data Hread. unfold NewErrorHandler. rewrite Hread. cbn [fst snd].
    split; [reflexivity |]. intros s Hnext.
    rewrite ErrorHandler_HandlerFunc_enter, Hnext. cbn [Content ErrorCode].
    destruct (aborted (ctx s) && (status (ctx s) =? code)); reflexivity.
  - intros err Hread. unfold NewErrorHandler. rewrite Hread. cbn [fst snd].
    split; [reflexivity |].
    rewrite ErrorHandler_HandlerFunc_enter. cbn [Content ErrorCode].
    destruct (enter next c) as [[|] s]; [| reflexivity].
    destruct (aborted (ctx s) && (status (ctx s) =? 0)); cbn [snd ctx];
      [apply written_empty | reflexivity].
Qed.

End StaticProperties.

(** The static handler of the page template of the examples. *)
Lemma NewStaticHandler_serves_file_witness :
  body (ctx (snd (enter (StaticHandler_HandlerFunc
                           (fst (NewStaticHandler "/tmpl/page.mustache"))) request)))
  = "<h1>{{title}}</h1>".
Proof.
  destruct (proj1 (NewStaticHandler_serves_file "/tmpl/page.mustache" request)
              "<h1>{{title}}</h1>") as [_ Hctx]; [reflexivity |].
  rewrite Hctx. reflexivity.
Defined.

(** The default error page answers the request that the failing backend of
    the page [list] aborted. *)
Lemma ErrorHandler_around_Handler_witness :
  body (ctx (snd (enter (ErrorHandler_HandlerFunc Default500StaticHandler
                           (HandlerFunc (fst (NewHandler (NewHandlerConfig page2)
                                                         0%nat 1%nat))))
                        request)))
  = "<h1>500</h1>".
Proof.
  destruct (proj1 (ErrorHandler_around_Handler Default500StaticHandler
                     (fst (NewHandler (NewHandlerConfig page2) 0%nat 1%nat))
                     request eq_refl) eq_refl) as (Hgeneration & _).
  destruct (Hgeneration "backend status 500" eq_refl) as (_ & _ & Hbody).
  exact Hbody.
Defined.

(** The error handler of a missing file changes nothing. *)
Lemma NewErrorHandler_serves_file_witness :
  snd (NewErrorHandler "/tmpl/missing.html" 404)
  = Some "open /tmpl/missing.html: no such file".
Proof.
  destruct (proj2 (NewErrorHandler_serves_file "/tmpl/missing.html" 404
                     (HandlerFunc title_handler) request)
              "open /tmpl/missing.html: no such file") as [Herr _]; [reflexivity |].
  exact Herr.
Defined.
